(** * helix-swarm: request marshalling of the Groups and Reviews endpoints

    A shallow embedding of [helixswarm/endpoints/groups.py] and
    [helixswarm/endpoints/reviews.py].  Every endpoint method checks the
    negotiated API version, fills a dictionary from its keyword arguments
    and hands it to the [_request] method of the shared client, whose
    result it returns.

    The client ([self.swarm]) is an external collaborator: it is modelled
    as a record holding the negotiated version, the version metadata and a
    transport acting on an abstract world.  Each [_request] call is
    recorded, the way a mock transport records the calls it receives. *)

From stdpp Require Import gmap strings list fin_maps.
From Stdlib Require Import ZArith DecimalString DecimalPos DecimalZ.

Open Scope string_scope.
Open Scope Z_scope.
Open Scope list_scope.

(** ** Python values *)

(** The values the endpoint methods store in their dictionaries: the
    union of the annotated types [str], [int], [bool], [List[str]] and
    [List[int]], with [None]. *)
Inductive value : Type :=
  | VNone
  | VBool (b : bool)
  | VInt (z : Z)
  | VStr (s : string)
  | VStrList (l : list string)
  | VIntList (l : list Z).

(** A Python [dict] with [str] keys. *)
Abbreviation dict := (gmap string value).

(** [d[k] = v] under a condition: the statement [if c: d[k] = v], as a
    function of the dictionary. *)
Definition store_if (c : bool) (k : string) (v : value) (d : dict) : dict :=
  if c then <[k := v]> d else d.

(** [if x is not None: d[k] = f(x)] *)
Definition store_some {A} (x : option A) (k : string) (f : A → value)
    (d : dict) : dict :=
  match x with
  | Some a => <[k := f a]> d
  | None => d
  end.

(** Truth value testing, as [if x:] performs it: [None], [False], [0],
    [''] and [[]] are false, everything else is true. *)
Class Truthy (A : Type) := truthy : A → bool.
Global Hint Mode Truthy ! : typeclass_instances.

Global Instance truthy_bool : Truthy bool := λ b, b.
Global Instance truthy_int : Truthy Z := λ z, negb (z =? 0).
Global Instance truthy_str : Truthy string :=
  λ s, match s with EmptyString => false | String _ _ => true end.
Global Instance truthy_list {A} : Truthy (list A) :=
  λ l, match l with [] => false | _ :: _ => true end.
Global Instance truthy_optional `{Truthy A} : Truthy (option A) :=
  λ o, match o with None => false | Some a => truthy a end.

(** The Python object behind a typed argument. *)
Class PyVal (A : Type) := py : A → value.
Global Hint Mode PyVal ! : typeclass_instances.

Global Instance py_bool : PyVal bool := VBool.
Global Instance py_int : PyVal Z := VInt.
Global Instance py_str : PyVal string := VStr.
Global Instance py_str_list : PyVal (list string) := VStrList.
Global Instance py_int_list : PyVal (list Z) := VIntList.
Global Instance py_optional `{PyVal A} : PyVal (option A) :=
  λ o, match o with None => VNone | Some a => py a end.

(** [int(b)] for a [bool], and [str(n)] for an [int]. *)
Definition int_of_bool (b : bool) : Z := if b then 1 else 0.
Definition str_of_int (n : Z) : string := NilZero.string_of_int (Z.to_int n).

Class PyStr (A : Type) := str : A → string.
Global Hint Mode PyStr ! : typeclass_instances.
Global Instance str_int : PyStr Z := str_of_int.
Global Instance str_str : PyStr string := λ s, s.

(** [sep.join(l)] *)
Definition join (sep : string) (l : list string) : string :=
  String.concat sep l.

(** [','.join(fields)] applied to an [Optional[List[str]]]. *)
Definition join_fields (fields : option (list string)) : string :=
  join "," (default [] fields).

(** ['prefix/{}'.format(x)] and ['prefix/{}/suffix'.format(x)] *)
Definition format1 `{PyStr A} (pre : string) (x : A) (post : string)
    : string :=
  pre +:+ str x +:+ post.

(** ** Exceptions and the client *)

Section Client.
(** [World] is whatever the transport talks to, [Response] a decoded
    JSON response, [Failure] an error of the transport. *)
Context {World Response Failure : Type}.

(** Modelled from the spec: the exception classes live in
    [helixswarm/exceptions.py], outside the two endpoint modules embedded
    here.  The specification knows two kinds of error raised by the
    endpoints and keeps them apart: [SwarmError], raised by
    [Groups.create], is its validation error and [SwarmCompatibleError]
    its compatibility error.  Whatever the transport raises passes
    through as a [TransportError]. *)
Inductive exn : Type :=
  | SwarmError (msg : string)
  | SwarmCompatibleError (msg : string)
  | TransportError (f : Failure).

Inductive outcome (A : Type) : Type :=
  | Return (a : A)
  | Raise (e : exn).

(** One call of [_request(method, path, params=, data=, json=)]. *)
Record Request : Type := mkRequest {
  method : string;
  path : string;
  params : option dict;
  data : option dict;
  json : option dict;
}.

(** The result of [get_version()]. *)
Record Version : Type := mkVersion {
  apiVersions : list Z;
}.

(** Modelled from the spec: the shared client, of which the endpoint
    modules use three things: the negotiated version [api_version], the
    version metadata [get_version()] and the request method, which rests
    on a transport. *)
Record Swarm : Type := mkSwarm {
  api_version : Z;
  get_version : World → Version * World;
  transport : Request → World → (Response + Failure) * World;
}.

(** What a mock transport records of one [_request] call: the request
    it received and what it answered. *)
Record Call : Type := mkCall {
  request : Request;
  reply : Response + Failure;
}.

(** The state a call runs in: the world, and the calls the transport
    has received so far. *)
Record State : Type := mkState {
  world : World;
  calls : list Call;
}.

Definition M (A : Type) : Type := State → outcome A * State.

Definition raise {A} (e : exn) : M A := λ st, (Raise A e, st).

#[export] Instance M_ret : MRet M := λ A a st, (Return A a, st).
#[export] Instance M_bind : MBind M :=
  λ A B k m st,
    match m st with
    | (Return _ a, st') => k a st'
    | (Raise _ e, st') => (Raise B e, st')
    end.

(** What the caller of [_request] sees of the transport's answer: the
    decoded response comes back, an error propagates. *)
Definition answer (r : Response + Failure) : outcome Response :=
  match r with
  | inl resp => Return Response resp
  | inr f => Raise Response (TransportError f)
  end.

(** [self.swarm._request(method, path, params=, data=, json=)] *)
Definition _request (swarm : Swarm) (meth pth : string)
    (params data json : option dict) : M Response :=
  λ st,
    let req := mkRequest meth pth params data json in
    let '(r, w) := transport swarm req (world st) in
    (answer r, mkState w (calls st ++ [mkCall req r])).

(** Modelled from the spec: [self.swarm.get_version()], which is defined
    in the client class, outside the two endpoint modules embedded here.
    This is the method as the specification's interface lists it, beside
    the request method: [get_version() -> {apiVersions}], a capability of
    the client that hands over the metadata.  It may change the world,
    but it is not counted among the calls of the request method and it
    does not fail.  How the metadata get there is left open here; the
    fetch through the transport, which is recorded and can fail, is
    [Fetching.get_version] below. *)
Definition call_get_version (swarm : Swarm) : M Version :=
  λ st,
    let '(v, w) := get_version swarm (world st) in
    (Return Version v, mkState w (calls st)).

(** Modelled from the spec: the decorator [minimal_version] is defined
    in [helixswarm/helpers.py], outside the two endpoint modules embedded
    here.  The operations it guards "fail with a CompatibilityError" when
    the negotiated version is below the given one, before anything else
    happens; otherwise the guarded method runs.  The wording of the
    message is not fixed by the specification, and nothing below depends
    on it. *)
Definition minimal_version {A} (version : Z) (swarm : Swarm)
    (name : string) (body : M A) : M A :=
  if api_version swarm <? version
  then raise (SwarmCompatibleError
                (name +:+ " is supported with API v" +:+ str version +:+ "+"))
  else body.
End Client.

Arguments exn : clear implicits.
Arguments outcome : clear implicits.
Arguments Swarm : clear implicits.
Arguments State : clear implicits.
Arguments Call : clear implicits.
Arguments M : clear implicits.
Arguments Return {Failure A} a.
Arguments Raise {Failure A} e.

(** [11 in version['apiVersions']] *)
Definition contains (n : Z) (l : list Z) : bool := existsb (Z.eqb n) l.

(** ** The Groups endpoints *)

Module Groups.
Section Groups.
Context {World Response Failure : Type}.
Local Abbreviation Swarm := (Swarm World Response Failure).
Local Abbreviation M := (M World Response Failure).

(** [class Groups], with its one attribute. *)
Record t : Type := mk { swarm : Swarm }.

Definition get (self : t)
    (after : option string) (limit : option Z)
    (fields : option (list string)) (keywords : option string)
    : M Response :=
  minimal_version 2 (swarm self) "get" (
    let params : dict := ∅ in
    let params := store_if (truthy after) "after" (py after) params in
    let params := store_if (truthy limit) "max" (py limit) params in
    let params :=
      store_if (truthy fields) "fields" (VStr (join_fields fields)) params in
    let params :=
      store_if (truthy keywords) "keywords" (py keywords) params in
    _request (swarm self) "GET" "groups" (Some params) None None).

Definition get_info (self : t) (identifier : string)
    (fields : option (list string)) : M Response :=
  minimal_version 2 (swarm self) "get_info" (
    let params : dict := ∅ in
    let params :=
      store_if (truthy fields) "fields" (VStr (join_fields fields)) params in
    response ← _request (swarm self) "GET" (format1 "groups/" identifier "")
                 (Some params) None None;
    mret response).

Definition create (self : t) (identifier : string)
    (users owners subgroups : option (list string))
    (name description email_address : option string)
    (notify_reviews notify_commits use_mailing_list : option bool)
    (max_results max_scan_rows max_lock_time max_open_files max_memory
     timeout password_timeout : option Z)
    : M Response :=
  minimal_version 2 (swarm self) "create" (
    let data : dict := ∅ in
    let data := <["Group" := py identifier]> data in
    if negb (truthy users || truthy owners || truthy subgroups) then
      raise (SwarmError
               "At least one of users, owners, or subgroups is required")
    else
    let data := store_if (truthy users) "Users" (py users) data in
    let data := store_if (truthy owners) "Owners" (py owners) data in
    let data := store_if (truthy subgroups) "Subgroups" (py subgroups) data in
    let data := store_if (truthy name) "config[name]" (py name) data in
    let data :=
      store_if (truthy description) "config[description]"
        (py description) data in
    let data :=
      store_if (truthy email_address) "config[emailAddress]"
        (py email_address) data in
    let data :=
      store_if (truthy notify_reviews) "config[emailFlags][reviews]"
        (py notify_reviews) data in
    let data :=
      store_if (truthy notify_commits) "config[emailFlags][commits]"
        (py notify_commits) data in
    let data :=
      store_if (truthy use_mailing_list) "config[useMailingList]"
        (py use_mailing_list) data in
    let data :=
      store_if (truthy max_results) "MaxResults" (py max_results) data in
    let data :=
      store_if (truthy max_scan_rows) "MaxScanRows" (py max_scan_rows) data in
    let data :=
      store_if (truthy max_lock_time) "MaxLockTime" (py max_lock_time) data in
    let data :=
      store_if (truthy max_open_files) "MaxOpenFiles"
        (py max_open_files) data in
    let data :=
      store_if (truthy max_memory) "MaxMemory" (py max_memory) data in
    let data := store_if (truthy timeout) "Timeout" (py timeout) data in
    let data :=
      store_if (truthy password_timeout) "PasswordTimeout"
        (py password_timeout) data in
    version ← call_get_version (swarm self);
    if contains 11 (apiVersions version) then
      _request (swarm self) "POST" "groups" None None (Some data)
    else
      _request (swarm self) "POST" "groups" None (Some data) None).

Definition edit (self : t) (identifier : string)
    (users owners subgroups : option (list string))
    (name description email_address : option string)
    (notify_reviews notify_commits use_mailing_list : option bool)
    : M Response :=
  minimal_version 2 (swarm self) "edit" (
    let data : dict := ∅ in
    let data := store_if (truthy users) "Users" (py users) data in
    let data := store_if (truthy owners) "Owners" (py owners) data in
    let data := store_if (truthy subgroups) "Subgroups" (py subgroups) data in
    let data := store_if (truthy name) "config[name]" (py name) data in
    let data :=
      store_if (truthy description) "config[description]"
        (py description) data in
    let data :=
      store_if (truthy email_address) "config[emailAddress]"
        (py email_address) data in
    let data :=
      store_if (truthy notify_reviews) "config[emailFlags][reviews]"
        (py notify_reviews) data in
    let data :=
      store_if (truthy notify_commits) "config[emailFlags][commits]"
        (py notify_commits) data in
    let data :=
      store_if (truthy use_mailing_list) "config[useMailingList]"
        (py use_mailing_list) data in
    response ← _request (swarm self) "PATCH" (format1 "groups/" identifier "")
                 None (Some data) None;
    mret response).

Definition delete (self : t) (identifier : string) : M Response :=
  minimal_version 2 (swarm self) "delete" (
    _request (swarm self) "DELETE" (format1 "groups/" identifier "")
      None None None).
End Groups.
End Groups.

(** ** The Reviews endpoints *)

Module Reviews.
Section Reviews.
Context {World Response Failure : Type}.
Local Abbreviation Swarm := (Swarm World Response Failure).
Local Abbreviation M := (M World Response Failure).

(** [class Reviews], with its one attribute. *)
Record t : Type := mk { swarm : Swarm }.

Definition get (self : t)
    (after limit : option Z) (fields authors : option (list string))
    (changes : option (list Z)) (has_reviewers : option bool)
    (ids : option (list Z)) (keywords : option string)
    (participants projects states : option (list string))
    (passes_tests : option bool) (not_updated_since has_voted : option string)
    (my_comments : option bool)
    : M Response :=
  let params : dict := ∅ in
  let params := store_if (truthy after) "after" (py after) params in
  let params := store_if (truthy limit) "max" (py limit) params in
  let params :=
    store_if (truthy fields) "fields" (VStr (join_fields fields)) params in
  params ←
    (if truthy authors then
       let params := <["author" := py authors]> params in
       if api_version (swarm self) <? 2 then
         raise (SwarmCompatibleError
                  "author field is supported from API version >= 2")
       else mret params
     else mret params);
  let params := store_if (truthy changes) "change" (py changes) params in
  let params :=
    store_some has_reviewers "hasReviewers"
      (λ flag, VStr (str (int_of_bool flag))) params in
  let params := store_if (truthy ids) "ids" (py ids) params in
  let params := store_if (truthy keywords) "keywords" (py keywords) params in
  let params :=
    store_if (truthy participants) "participants" (py participants) params in
  let params := store_if (truthy projects) "project" (py projects) params in
  let params := store_if (truthy states) "state" (py states) params in
  let params :=
    store_some passes_tests "passesTests"
      (λ flag, VStr (str (int_of_bool flag))) params in
  let params :=
    store_if (truthy not_updated_since) "notUpdatedSince"
      (py not_updated_since) params in
  let params :=
    store_if (truthy has_voted) "hasVoted" (py has_voted) params in
  let params :=
    store_some my_comments "myComments"
      (λ flag, VStr (str (int_of_bool flag))) params in
  _request (swarm self) "GET" "reviews" (Some params) None None.

Definition get_info (self : t) (review_id : Z)
    (fields : option (list string)) : M Response :=
  let params : dict := ∅ in
  let params :=
    store_if (truthy fields) "fields" (VStr (join_fields fields)) params in
  response ← _request (swarm self) "GET" (format1 "reviews/" review_id "")
               (Some params) None None;
  mret response.

Definition get_transitions (self : t) (review_id : Z)
    (up_voters : option string) : M Response :=
  if api_version (swarm self) <? 9 then
    raise (SwarmCompatibleError "get_transitions is supported with API v9+")
  else
    let params : dict := ∅ in
    let params :=
      store_if (truthy up_voters) "upVoters" (py up_voters) params in
    response ← _request (swarm self) "GET"
                 (format1 "reviews/" review_id "/transitions")
                 (Some params) None None;
    mret response.

Definition create (self : t) (change : Z)
    (description : option string)
    (reviewers required_reviewers reviewer_groups : option (list string))
    : M Response :=
  let data : dict := {[ "change" := py change ]} in
  let data :=
    store_if (truthy description) "description" (py description) data in
  let data := store_if (truthy reviewers) "reviewers" (py reviewers) data in
  data ←
    (if truthy required_reviewers then
       let data := <["requiredReviewers" := py required_reviewers]> data in
       if api_version (swarm self) =? 1 then
         raise (SwarmCompatibleError
                  "required_reviewers field is supported from API version > 1")
       else mret data
     else mret data);
  data ←
    (if truthy reviewer_groups then
       let data := <["reviewerGroups" := py reviewer_groups]> data in
       if api_version (swarm self) <? 7 then
         raise (SwarmCompatibleError
                  "reviewer_groups field is supported from API version > 6")
       else mret data
     else mret data);
  _request (swarm self) "POST" "reviews" None (Some data) None.

Definition archive (self : t) (not_updated_since description : string)
    : M Response :=
  if api_version (swarm self) <? 6 then
    raise (SwarmCompatibleError "archive is supported with API v6+")
  else
    let data : dict :=
      <["description" := py description]>
        {[ "notUpdatedSince" := py not_updated_since ]} in
    _request (swarm self) "POST" "reviews/archive" None (Some data) None.

Definition cleanup (self : t) (review_id : Z) (reopen : option bool)
    : M Response :=
  if api_version (swarm self) <? 6 then
    raise (SwarmCompatibleError "cleanup is supported with API v6+")
  else
    let data : dict := ∅ in
    let data := store_if (truthy reopen) "reopen" (py reopen) data in
    response ← _request (swarm self) "POST"
                 (format1 "reviews/" review_id "/cleanup")
                 None (Some data) None;
    mret response.
End Reviews.
End Reviews.

(** ** [Groups.create] over a client that fetches its metadata *)

(** [Groups.create] once more, with [self.swarm.get_version()] carried
    out as a request of its own. *)
Module Fetching.
Section Fetching.
Context {World Response Failure : Type}.
Local Abbreviation Swarm := (Swarm World Response Failure).
Local Abbreviation M := (M World Response Failure).

(** The method and the path of the request that fetches the version
    metadata, and the metadata read off its decoded response. *)
Variables fetch_method fetch_path : string.
Variable metadata : Response → Version.

(** Modelled from the spec: [self.swarm.get_version()] is "a method to
    fetch full version metadata", and [Groups.create] "fetches current
    version metadata" with it.  The fetch is an exchange with the server
    like any other: it goes through the request method, the transport
    records it, and a failure of the transport comes out of it
    unchanged. *)
Definition get_version (swarm : Swarm) : M Version :=
  response ← _request swarm fetch_method fetch_path None None None;
  mret (metadata response).

(** [Groups.create], line for line as in [Groups] above; only
    [self.swarm.get_version()] is now the fetch. *)
Definition create (self : Groups.t) (identifier : string)
    (users owners subgroups : option (list string))
    (name description email_address : option string)
    (notify_reviews notify_commits use_mailing_list : option bool)
    (max_results max_scan_rows max_lock_time max_open_files max_memory
     timeout password_timeout : option Z)
    : M Response :=
  minimal_version 2 (Groups.swarm self) "create" (
    let data : dict := ∅ in
    let data := <["Group" := py identifier]> data in
    if negb (truthy users || truthy owners || truthy subgroups) then
      raise (SwarmError
               "At least one of users, owners, or subgroups is required")
    else
    let data := store_if (truthy users) "Users" (py users) data in
    let data := store_if (truthy owners) "Owners" (py owners) data in
    let data := store_if (truthy subgroups) "Subgroups" (py subgroups) data in
    let data := store_if (truthy name) "config[name]" (py name) data in
    let data :=
      store_if (truthy description) "config[description]"
        (py description) data in
    let data :=
      store_if (truthy email_address) "config[emailAddress]"
        (py email_address) data in
    let data :=
      store_if (truthy notify_reviews) "config[emailFlags][reviews]"
        (py notify_reviews) data in
    let data :=
      store_if (truthy notify_commits) "config[emailFlags][commits]"
        (py notify_commits) data in
    let data :=
      store_if (truthy use_mailing_list) "config[useMailingList]"
        (py use_mailing_list) data in
    let data :=
      store_if (truthy max_results) "MaxResults" (py max_results) data in
    let data :=
      store_if (truthy max_scan_rows) "MaxScanRows" (py max_scan_rows) data in
    let data :=
      store_if (truthy max_lock_time) "MaxLockTime" (py max_lock_time) data in
    let data :=
      store_if (truthy max_open_files) "MaxOpenFiles"
        (py max_open_files) data in
    let data :=
      store_if (truthy max_memory) "MaxMemory" (py max_memory) data in
    let data := store_if (truthy timeout) "Timeout" (py timeout) data in
    let data :=
      store_if (truthy password_timeout) "PasswordTimeout"
        (py password_timeout) data in
    version ← get_version (Groups.swarm self);
    if contains 11 (apiVersions version) then
      _request (Groups.swarm self) "POST" "groups" None None (Some data)
    else
      _request (Groups.swarm self) "POST" "groups" None (Some data) None).
End Fetching.
End Fetching.

(** ** The vocabulary of the statements *)

(** "Non-null/non-empty", to the letter: the argument is not [None], and
    it is not the empty string or the empty list.  A number or a boolean
    is never empty. *)
Class Emptiness (A : Type) := is_empty : A → bool.
Global Hint Mode Emptiness ! : typeclass_instances.

Global Instance is_empty_bool : Emptiness bool := λ _, false.
Global Instance is_empty_int : Emptiness Z := λ _, false.
Global Instance is_empty_str : Emptiness string :=
  λ s, match s with EmptyString => true | String _ _ => false end.
Global Instance is_empty_list {A} : Emptiness (list A) :=
  λ l, match l with [] => true | _ :: _ => false end.



Section Vocabulary.
Context {World Response Failure : Type}.
Local Abbreviation Swarm := (Swarm World Response Failure).
Local Abbreviation State := (State World Response Failure).
Local Abbreviation M := (M World Response Failure).
Implicit Types (st : State) (p d : dict).

Definition compatibility_error (e : exn Failure) : Prop :=
  ∃ msg, e = SwarmCompatibleError msg.
Definition validation_error (e : exn Failure) : Prop :=
  ∃ msg, e = SwarmError msg.

(** The call raises an exception in class [P] and leaves the state as
    it found it: the transport has not been called. *)
Definition fails_early {A} (P : exn Failure → Prop) (m : M A) (st : State)
    : Prop :=
  ∃ e, P e ∧ m st = (Raise e, st).

(** The call passes exactly the request [req] to the transport and
    hands back the transport's answer [r] as it is. *)
Definition sends_one (swarm : Swarm) (req : Request) (m : M Response)
    (st : State) : Prop :=
  ∃ w r w',
    transport swarm req w = (r, w') ∧
    m st = (answer r, mkState w' (calls st ++ [mkCall req r])).

(** The errors the endpoint methods raise themselves. *)
Definition client_error (e : exn Failure) : Prop :=
  validation_error e ∨ compatibility_error e.

(** The call is refused before the transport is reached, or it sends
    one request and hands back the answer. *)
Definition refuses_or_sends (swarm : Swarm) (m : M Response) : Prop :=
  ∀ st, fails_early client_error m st ∨ ∃ req, sends_one swarm req m st.


(** What [if x: d[key] = x] leaves under [key]. *)
Definition entry `{Truthy A, PyVal A} (x : option A) : option value :=
  if truthy x then Some (py x) else None.

(** What [if fields: d['fields'] = ','.join(fields)] leaves under
    ['fields']. *)
Definition fields_entry (fields : option (list string)) : option value :=
  if truthy fields then Some (VStr (join_fields fields)) else None.

(** What [if flag is not None: d[key] = str(int(flag))] leaves under
    [key]. *)
Definition flag_entry (flag : option bool) : option value :=
  match flag with
  | None => None
  | Some false => Some (VStr "0")
  | Some true => Some (VStr "1")
  end.

(** The query parameters of [Groups.get], key by key. *)
Definition groups_get_params p (after : option string) (limit : option Z)
    (fields : option (list string)) (keywords : option string) : Prop :=
  p !! "after" = entry after ∧
  p !! "max" = entry limit ∧
  p !! "fields" = fields_entry fields ∧
  p !! "keywords" = entry keywords.

(** The settings [Groups.create] and [Groups.edit] share, key by key. *)
Definition groups_settings d (users owners subgroups : option (list string))
    (name description email_address : option string)
    (notify_reviews notify_commits use_mailing_list : option bool) : Prop :=
  d !! "Users" = entry users ∧
  d !! "Owners" = entry owners ∧
  d !! "Subgroups" = entry subgroups ∧
  d !! "config[name]" = entry name ∧
  d !! "config[description]" = entry description ∧
  d !! "config[emailAddress]" = entry email_address ∧
  d !! "config[emailFlags][reviews]" = entry notify_reviews ∧
  d !! "config[emailFlags][commits]" = entry notify_commits ∧
  d !! "config[useMailingList]" = entry use_mailing_list.

(** The tuning fields of [Groups.create], key by key. *)
Definition groups_tuning d
    (max_results max_scan_rows max_lock_time max_open_files max_memory
     timeout password_timeout : option Z) : Prop :=
  d !! "MaxResults" = entry max_results ∧
  d !! "MaxScanRows" = entry max_scan_rows ∧
  d !! "MaxLockTime" = entry max_lock_time ∧
  d !! "MaxOpenFiles" = entry max_open_files ∧
  d !! "MaxMemory" = entry max_memory ∧
  d !! "Timeout" = entry timeout ∧
  d !! "PasswordTimeout" = entry password_timeout.

(** The request [Groups.create] sends for the payload [d], given the
    versions the server announces. *)
Definition groups_create_request (versions : list Z) d : Request :=
  if contains 11 versions
  then mkRequest "POST" "groups" None None (Some d)
  else mkRequest "POST" "groups" None (Some d) None.

(** The keys [Reviews.get] writes. *)
Definition reviews_get_keys : list string :=
  ["after"; "max"; "fields"; "author"; "change"; "hasReviewers"; "ids";
   "keywords"; "participants"; "project"; "state"; "passesTests";
   "notUpdatedSince"; "hasVoted"; "myComments"].

(** The query parameters of [Reviews.get], key by key. *)
Definition reviews_get_params p
    (after limit : option Z) (fields authors : option (list string))
    (changes : option (list Z)) (has_reviewers : option bool)
    (ids : option (list Z)) (keywords : option string)
    (participants projects states : option (list string))
    (passes_tests : option bool) (not_updated_since has_voted : option string)
    (my_comments : option bool) : Prop :=
  p !! "after" = entry after ∧
  p !! "max" = entry limit ∧
  p !! "fields" = fields_entry fields ∧
  p !! "author" = entry authors ∧
  p !! "change" = entry changes ∧
  p !! "hasReviewers" = flag_entry has_reviewers ∧
  p !! "ids" = entry ids ∧
  p !! "keywords" = entry keywords ∧
  p !! "participants" = entry participants ∧
  p !! "project" = entry projects ∧
  p !! "state" = entry states ∧
  p !! "passesTests" = flag_entry passes_tests ∧
  p !! "notUpdatedSince" = entry not_updated_since ∧
  p !! "hasVoted" = entry has_voted ∧
  p !! "myComments" = flag_entry my_comments ∧
  ∀ k, k ∉ reviews_get_keys → p !! k = None.

(** The payload of [Reviews.create], key by key. *)
Definition reviews_create_data d (change : Z) (description : option string)
    (reviewers required_reviewers reviewer_groups : option (list string))
    : Prop :=
  d !! "change" = Some (VInt change) ∧
  d !! "description" = entry description ∧
  d !! "reviewers" = entry reviewers ∧
  d !! "requiredReviewers" = entry required_reviewers ∧
  d !! "reviewerGroups" = entry reviewer_groups.


(** The required-field check of [Groups.create], for the clients that
    [allowed] holds of: with [users], [owners] and [subgroups] all
    unset or empty the call raises a validation error and sends
    nothing; with one of them non-empty it raises no validation
    error. *)
Definition required_fields_checked (allowed : Swarm → Prop) self
    (identifier : string) (users owners subgroups : option (list string))
    (name description email_address : option string)
    (notify_reviews notify_commits use_mailing_list : option bool)
    (max_results max_scan_rows max_lock_time max_open_files max_memory
     timeout password_timeout : option Z) st : Prop :=
  let call :=
    Groups.create self identifier users owners subgroups name description
      email_address notify_reviews notify_commits use_mailing_list
      max_results max_scan_rows max_lock_time max_open_files max_memory
      timeout password_timeout in
  (allowed (Groups.swarm self) →
   truthy users || truthy owners || truthy subgroups = false →
   fails_early validation_error call st) ∧
  (truthy users || truthy owners || truthy subgroups = true →
   ∀ e, (call st).1 = Raise e → ¬ validation_error e).

(** A call is atomic with respect to the transport: it raises one of
    its own errors in the state it started in, or it calls the
    transport once and hands back the answer; and whenever it ends in
    one of its own errors, the transport has received nothing. *)
Definition atomic (swarm : Swarm) (m : M Response) : Prop :=
  ∀ st,
    (fails_early client_error m st ∨ ∃ req, sends_one swarm req m st) ∧
    (∀ e, (m st).1 = Raise e → client_error e →
          calls (m st).2 = calls st).


(** An optional argument with its false values ([0], [False], the empty
    string, the empty list) folded into [None]. *)
Definition unset_if_falsy `{Truthy A} (x : option A) : option A :=
  if truthy x then x else None.


(** The call is one call of the transport, made in the world the call
    started in, and it ends in the transport's answer. *)
Definition sends_directly (swarm : Swarm) (req : Request) (m : M Response)
    (st : State) : Prop :=
  m st =
  (answer (transport swarm req (world st)).1,
   mkState (transport swarm req (world st)).2
     (calls st ++ [mkCall req (transport swarm req (world st)).1])).

(** The call first fetches the version metadata and then calls the
    transport once, in the world the fetch left behind. *)
Definition sends_after_version (swarm : Swarm) (req : Request)
    (m : M Response) (st : State) : Prop :=
  let w := (get_version swarm (world st)).2 in
  m st =
  (answer (transport swarm req w).1,
   mkState (transport swarm req w).2
     (calls st ++ [mkCall req (transport swarm req w).1])).

(** The dictionary holds nothing outside [keys]. *)
Definition only_keys (keys : list string) d : Prop :=
  ∀ k, k ∉ keys → d !! k = None.

(** The keys the Groups methods and [Reviews.create] write. *)
Definition groups_get_keys : list string :=
  ["after"; "max"; "fields"; "keywords"].
Definition groups_edit_keys : list string :=
  ["Users"; "Owners"; "Subgroups"; "config[name]"; "config[description]";
   "config[emailAddress]"; "config[emailFlags][reviews]";
   "config[emailFlags][commits]"; "config[useMailingList]"].
Definition groups_create_keys : list string :=
  "Group" :: groups_edit_keys ++
  ["MaxResults"; "MaxScanRows"; "MaxLockTime"; "MaxOpenFiles"; "MaxMemory";
   "Timeout"; "PasswordTimeout"].
Definition reviews_create_keys : list string :=
  ["change"; "description"; "reviewers"; "requiredReviewers";
   "reviewerGroups"].


(** The call reaches the transport. *)
Definition accepted (swarm : Swarm) (m : M Response) (st : State) : Prop :=
  ∃ req, sends_one swarm req m st.

(** The call passes the request [fetch] to the transport first.  If the
    transport fails, the call ends in that failure and nothing else is
    sent.  If it answers, the call passes exactly one more request to
    the transport and hands back the answer to that one. *)
Definition fetches_then_sends (swarm : Swarm) (fetch : Request)
    (m : M Response) (st : State) : Prop :=
  ∃ v w,
    transport swarm fetch (world st) = (v, w) ∧
    match v with
    | inr f =>
        m st =
        (Raise (TransportError f), mkState w (calls st ++ [mkCall fetch v]))
    | inl _ =>
        ∃ req r w',
          transport swarm req w = (r, w') ∧
          m st =
          (answer r,
           mkState w' (calls st ++ [mkCall fetch v; mkCall req r]))
    end.

(** Atomicity of a call that fetches before it sends: it raises one of
    its own errors in the state it started in, or it fetches and then
    sends once; and whenever it ends in one of its own errors, the
    transport has received nothing. *)
Definition atomic_after_fetch (swarm : Swarm) (fetch : Request)
    (m : M Response) : Prop :=
  ∀ st,
    (fails_early client_error m st ∨ fetches_then_sends swarm fetch m st) ∧
    (∀ e, (m st).1 = Raise e → client_error e →
          calls (m st).2 = calls st).
End Vocabulary.

(** ** A mock client *)

(** A client over a transport that answers every request with the request
    itself and counts the requests it has seen. *)
Module Mock.
Definition swarm (version : Z) (versions : list Z) : Swarm nat Request unit :=
  mkSwarm version (λ w, (mkVersion versions, w)) (λ req w, (inl req, S w)).

Definition start : State nat Request unit := mkState 0%nat [].

(** The metadata the mock server holds, whatever it is asked. *)
Definition metadata (versions : list Z) : Request → Version :=
  λ _, mkVersion versions.
End Mock.

(** ** What a call does to the transport: basic facts *)

Section Observations.
Context {World Response Failure : Type}.
Local Abbreviation Swarm := (Swarm World Response Failure).
Local Abbreviation State := (State World Response Failure).
Local Abbreviation M := (M World Response Failure).

(** A call that comes down to one [_request], possibly after the world
    has moved on, sends that one request. *)
Lemma sends_one_via (swarm : Swarm) meth pth ps d j (m : M Response)
    (st st' : State) :
  calls st' = calls st →
  m st = _request swarm meth pth ps d j st' →
  sends_one swarm (mkRequest meth pth ps d j) m st.
Proof.
  intros Hcalls Hrun. unfold sends_one. rewrite Hrun. unfold _request.
  destruct (transport swarm _ (world st')) as [r w'] eqn:Ht.
  exists (world st'), r, w'. by rewrite Hcalls.
Qed.

Lemma request_sends_one (swarm : Swarm) meth pth ps d j (st : State) :
  sends_one swarm (mkRequest meth pth ps d j)
    (_request swarm meth pth ps d j) st.
Proof. by apply (sends_one_via _ _ _ _ _ _ _ st st). Qed.

Lemma bind_mret {A} (m : M A) (st : State) : (x ← m; mret x) st = m st.
Proof.
  unfold mbind, M_bind, mret, M_ret.
  by destruct (m st) as [[a|e] st'].
Qed.

Lemma request_mret_sends_one (swarm : Swarm) meth pth ps d j (st : State) :
  sends_one swarm (mkRequest meth pth ps d j)
    (response ← _request swarm meth pth ps d j; mret response) st.
Proof. apply (sends_one_via _ _ _ _ _ _ _ st st); [done | apply bind_mret]. Qed.

Lemma sends_one_inj (swarm : Swarm) req req' (m : M Response) (st : State) :
  sends_one swarm req m st → sends_one swarm req' m st → req = req'.
Proof.
  intros (w1 & r1 & w1' & _ & Hrun1) (w2 & r2 & w2' & _ & Hrun2).
  rewrite Hrun1 in Hrun2. injection Hrun2 as _ _ Hcalls.
  apply app_inv_head in Hcalls. by injection Hcalls.
Qed.

Lemma sends_one_calls (swarm : Swarm) req (m : M Response) (st : State) :
  sends_one swarm req m st →
  ∃ r, calls (m st).2 = calls st ++ [mkCall req r] ∧ (m st).1 = answer r.
Proof. intros (w & r & w' & _ & Hrun). exists r. by rewrite Hrun. Qed.

Lemma fails_early_calls {A} P (m : M A) (st : State) :
  fails_early P m st → calls (m st).2 = calls st.
Proof. intros (e & _ & Hrun). by rewrite Hrun. Qed.

Lemma answer_not_client_error (r : Response + Failure) e :
  answer r = Raise e → ¬ client_error e.
Proof.
  destruct r; simpl; [done |].
  intros [= <-] [[msg Hmsg] | [msg Hmsg]]; discriminate.
Qed.

Lemma sends_one_not_fails (swarm : Swarm) req P (m : M Response) (st : State) :
  sends_one swarm req m st → ¬ fails_early P m st.
Proof.
  intros (w & r & w' & _ & Hrun) (e & _ & Hfail).
  rewrite Hrun in Hfail. injection Hfail as _ Hst.
  apply (f_equal calls) in Hst. simpl in Hst.
  apply (f_equal length) in Hst. rewrite length_app in Hst. simpl in Hst. lia.
Qed.

Lemma fails_early_client {A} (P : exn Failure → Prop) (m : M A) (st : State) :
  (∀ e, P e → client_error e) →
  fails_early P m st → fails_early client_error m st.
Proof. intros HP (e & He & Hrun). exists e. auto. Qed.

Lemma bind_get_version {A} (swarm : Swarm) (k : Version → M A) (st : State) :
  (version ← call_get_version swarm; k version) st =
  k (get_version swarm (world st)).1
    (mkState (get_version swarm (world st)).2 (calls st)).
Proof.
  unfold mbind, M_bind, call_get_version.
  by destruct (get_version swarm (world st)).
Qed.

(** The version guard, both ways. *)
Lemma minimal_version_fails {A} version (swarm : Swarm) name (body : M A)
    (st : State) :
  api_version swarm < version →
  fails_early compatibility_error
    (minimal_version version swarm name body) st.
Proof.
  intros Hlt. apply Z.ltb_lt in Hlt. unfold minimal_version. rewrite Hlt.
  eexists. split; [by eexists | done].
Qed.

Lemma minimal_version_passes {A} version (swarm : Swarm) name (body : M A) :
  version ≤ api_version swarm →
  minimal_version version swarm name body = body.
Proof.
  intros Hge. apply Z.ltb_ge in Hge. unfold minimal_version. by rewrite Hge.
Qed.

Lemma append_nil_r (s : string) : s +:+ "" = s.
Proof.
  induction s as [|a s IH]; [done |].
  change (String a s +:+ "") with (String a (s +:+ "")). by rewrite IH.
Qed.

(** Reading a dictionary after a conditional store. *)
Lemma lookup_store_if_eq (c : bool) (k : string) (v : value) (d : dict) :
  store_if c k v d !! k = if c then Some v else d !! k.
Proof. unfold store_if. destruct c; [apply lookup_insert_eq | done]. Qed.

Lemma lookup_store_if_ne (c : bool) (k k' : string) (v : value) (d : dict) :
  k ≠ k' → store_if c k v d !! k' = d !! k'.
Proof.
  intros. unfold store_if. destruct c; [by apply lookup_insert_ne | done].
Qed.

Lemma lookup_store_some_eq {A} (x : option A) (k : string) (f : A → value)
    (d : dict) :
  store_some x k f d !! k =
  match x with Some a => Some (f a) | None => d !! k end.
Proof. destruct x; simpl; [apply lookup_insert_eq | done]. Qed.

Lemma lookup_store_some_ne {A} (x : option A) (k k' : string) (f : A → value)
    (d : dict) :
  k ≠ k' → store_some x k f d !! k' = d !! k'.
Proof. intros. destruct x; simpl; [by apply lookup_insert_ne | done]. Qed.

(** [str(int(False))] is ['0'] and [str(int(True))] is ['1']. *)
Lemma flag_entry_eq (flag : option bool) :
  match flag with
  | Some b => Some (VStr (str (int_of_bool b)))
  | None => None
  end = flag_entry flag.
Proof. by destruct flag as [[|]|]. Qed.
End Observations.

(** Looks a key up in a dictionary built by a chain of conditional
    stores, one store at a time. *)
Ltac lookup_step :=
  first
    [ rewrite lookup_store_if_eq
    | rewrite lookup_store_if_ne by first [discriminate | congruence]
    | rewrite lookup_store_some_eq
    | rewrite lookup_store_some_ne by first [discriminate | congruence]
    | rewrite lookup_insert_eq
    | rewrite lookup_insert_ne by first [discriminate | congruence]
    | rewrite lookup_singleton_eq
    | rewrite lookup_singleton_ne by first [discriminate | congruence]
    | rewrite lookup_empty ].
Ltac lookup_dict := repeat lookup_step; rewrite ?flag_entry_eq.

(** ** Groups: what each method sends *)

Section GroupsFacts.
Context {World Response Failure : Type}.
Local Abbreviation State := (State World Response Failure).
Local Abbreviation t := (@Groups.t World Response Failure).
Implicit Types (self : t) (st : State) (p d : dict).

Lemma groups_get_sends self after limit fields keywords st :
  2 ≤ api_version (Groups.swarm self) →
  ∃ p,
    sends_one (Groups.swarm self)
      (mkRequest "GET" "groups" (Some p) None None)
      (Groups.get self after limit fields keywords) st ∧
    groups_get_params p after limit fields keywords.
Proof.
  intros Hge. unfold Groups.get. rewrite minimal_version_passes by done.
  eexists. split; [apply request_sends_one |].
  unfold groups_get_params, entry, fields_entry. repeat apply conj; by lookup_dict.
Qed.

Lemma groups_get_info_sends self identifier fields st :
  2 ≤ api_version (Groups.swarm self) →
  ∃ p,
    sends_one (Groups.swarm self)
      (mkRequest "GET" ("groups/" +:+ identifier) (Some p) None None)
      (Groups.get_info self identifier fields) st ∧
    p !! "fields" = fields_entry fields.
Proof.
  intros Hge. unfold Groups.get_info, format1.
  rewrite minimal_version_passes by done. rewrite append_nil_r.
  eexists. split; [apply request_mret_sends_one |].
  unfold fields_entry. by lookup_dict.
Qed.

Lemma groups_create_fails_required self identifier users owners subgroups name
    description email_address notify_reviews notify_commits use_mailing_list
    max_results max_scan_rows max_lock_time max_open_files max_memory
    timeout password_timeout st :
  2 ≤ api_version (Groups.swarm self) →
  truthy users || truthy owners || truthy subgroups = false →
  Groups.create self identifier users owners subgroups name description
    email_address notify_reviews notify_commits use_mailing_list
    max_results max_scan_rows max_lock_time max_open_files max_memory
    timeout password_timeout st =
  (Raise (SwarmError
            "At least one of users, owners, or subgroups is required"), st).
Proof.
  intros Hge Hnone. unfold Groups.create.
  rewrite minimal_version_passes by done. by rewrite Hnone.
Qed.

(** With one of the three lists given, the payload is fixed by the
    arguments alone, and any client of version 2 or later sends it. *)
Lemma groups_create_sends identifier users owners subgroups name description
    email_address notify_reviews notify_commits use_mailing_list
    max_results max_scan_rows max_lock_time max_open_files max_memory
    timeout password_timeout :
  truthy users || truthy owners || truthy subgroups = true →
  ∃ d,
    (d !! "Group" = Some (VStr identifier) ∧
     groups_settings d users owners subgroups name description email_address
       notify_reviews notify_commits use_mailing_list ∧
     groups_tuning d max_results max_scan_rows max_lock_time max_open_files
       max_memory timeout password_timeout) ∧
    ∀ self st,
      2 ≤ api_version (Groups.swarm self) →
      sends_one (Groups.swarm self)
        (groups_create_request
           (apiVersions (get_version (Groups.swarm self) (world st)).1) d)
        (Groups.create self identifier users owners subgroups name
           description email_address notify_reviews notify_commits
           use_mailing_list max_results max_scan_rows max_lock_time
           max_open_files max_memory timeout password_timeout) st.
Proof.
  intros Hsome. eexists. split; last first.
  - intros self st Hge. unfold Groups.create.
    rewrite minimal_version_passes by done. rewrite Hsome. simpl negb.
    cbv iota. unfold groups_create_request.
    destruct (contains 11 _) eqn:Hv;
      apply (sends_one_via _ _ _ _ _ _ _ st
               (mkState (get_version (Groups.swarm self) (world st)).2
                  (calls st)));
      try done; by rewrite bind_get_version, Hv.
  - unfold groups_settings, groups_tuning, entry. repeat apply conj; by lookup_dict.
Qed.

Lemma groups_edit_sends self identifier users owners subgroups name description
    email_address notify_reviews notify_commits use_mailing_list st :
  2 ≤ api_version (Groups.swarm self) →
  ∃ d,
    sends_one (Groups.swarm self)
      (mkRequest "PATCH" ("groups/" +:+ identifier) None (Some d) None)
      (Groups.edit self identifier users owners subgroups name description
         email_address notify_reviews notify_commits use_mailing_list) st ∧
    groups_settings d users owners subgroups name description email_address
      notify_reviews notify_commits use_mailing_list.
Proof.
  intros Hge. unfold Groups.edit, format1.
  rewrite minimal_version_passes by done. rewrite append_nil_r.
  eexists. split; [apply request_mret_sends_one |].
  unfold groups_settings, entry. repeat apply conj; by lookup_dict.
Qed.

Lemma groups_delete_sends self identifier st :
  2 ≤ api_version (Groups.swarm self) →
  sends_one (Groups.swarm self)
    (mkRequest "DELETE" ("groups/" +:+ identifier) None None None)
    (Groups.delete self identifier) st.
Proof.
  intros Hge. unfold Groups.delete, format1.
  rewrite minimal_version_passes by done. rewrite append_nil_r.
  apply request_sends_one.
Qed.





(** Each method is refused up front or sends exactly one request. *)
Lemma groups_get_refuses_or_sends self after limit fields keywords :
  refuses_or_sends (Groups.swarm self)
    (Groups.get self after limit fields keywords).
Proof.
  intros st.
  destruct (Z.lt_ge_cases (api_version (Groups.swarm self)) 2) as [Hlt | Hge].
  - left. apply (fails_early_client compatibility_error); [by right |].
    by apply minimal_version_fails.
  - right. edestruct groups_get_sends as (p & Hsends & _); eauto.
Qed.

Lemma groups_get_info_refuses_or_sends self identifier fields :
  refuses_or_sends (Groups.swarm self)
    (Groups.get_info self identifier fields).
Proof.
  intros st.
  destruct (Z.lt_ge_cases (api_version (Groups.swarm self)) 2) as [Hlt | Hge].
  - left. apply (fails_early_client compatibility_error); [by right |].
    by apply minimal_version_fails.
  - right. edestruct groups_get_info_sends as (p & Hsends & _); eauto.
Qed.


Lemma groups_edit_refuses_or_sends self identifier users owners subgroups name
    description email_address notify_reviews notify_commits
    use_mailing_list :
  refuses_or_sends (Groups.swarm self)
    (Groups.edit self identifier users owners subgroups name description
       email_address notify_reviews notify_commits use_mailing_list).
Proof.
  intros st.
  destruct (Z.lt_ge_cases (api_version (Groups.swarm self)) 2) as [Hlt | Hge].
  - left. apply (fails_early_client compatibility_error); [by right |].
    by apply minimal_version_fails.
  - right. edestruct groups_edit_sends as (d & Hsends & _); eauto.
Qed.

Lemma groups_delete_refuses_or_sends self identifier :
  refuses_or_sends (Groups.swarm self) (Groups.delete self identifier).
Proof.
  intros st.
  destruct (Z.lt_ge_cases (api_version (Groups.swarm self)) 2) as [Hlt | Hge].
  - left. apply (fails_early_client compatibility_error); [by right |].
    by apply minimal_version_fails.
  - right. eexists. by apply groups_delete_sends.
Qed.
End GroupsFacts.

(** ** Reviews: what each method sends *)

Section ReviewsFacts.
Context {World Response Failure : Type}.
Local Abbreviation State := (State World Response Failure).
Local Abbreviation t := (@Reviews.t World Response Failure).
Implicit Types (self : t) (st : State) (p d : dict).

Lemma reviews_get_fails self after limit fields authors changes has_reviewers ids
    keywords participants projects states passes_tests not_updated_since
    has_voted my_comments st :
  truthy authors = true → api_version (Reviews.swarm self) < 2 →
  Reviews.get self after limit fields authors changes has_reviewers ids
    keywords participants projects states passes_tests
    not_updated_since has_voted my_comments st =
  (Raise (SwarmCompatibleError
            "author field is supported from API version >= 2"), st).
Proof.
  intros Hauthors Hlt. apply Z.ltb_lt in Hlt.
  unfold Reviews.get, mbind, M_bind. by rewrite Hauthors, Hlt.
Qed.

Lemma reviews_get_sends self after limit fields authors changes has_reviewers ids
    keywords participants projects states passes_tests not_updated_since
    has_voted my_comments st :
  truthy authors = false ∨ 2 ≤ api_version (Reviews.swarm self) →
  ∃ p,
    sends_one (Reviews.swarm self)
      (mkRequest "GET" "reviews" (Some p) None None)
      (Reviews.get self after limit fields authors changes has_reviewers ids
         keywords participants projects states passes_tests
         not_updated_since has_voted my_comments) st ∧
    reviews_get_params p after limit fields authors changes has_reviewers ids
      keywords participants projects states passes_tests
      not_updated_since has_voted my_comments.
Proof.
  intros Hguard. unfold Reviews.get, mbind, M_bind, mret, M_ret.
  destruct (truthy authors) eqn:Hauthors.
  - destruct Hguard as [|Hge]; [done |]. apply Z.ltb_ge in Hge. rewrite Hge.
    eexists. split; [apply request_sends_one |].
    unfold reviews_get_params, entry, fields_entry. rewrite Hauthors.
    repeat apply conj; try by lookup_dict.
    intros k Hk. unfold reviews_get_keys in Hk. rewrite !not_elem_of_cons in Hk.
    destruct_and!. by lookup_dict.
  - eexists. split; [apply request_sends_one |].
    unfold reviews_get_params, entry, fields_entry. rewrite Hauthors.
    repeat apply conj; try by lookup_dict.
    intros k Hk. unfold reviews_get_keys in Hk. rewrite !not_elem_of_cons in Hk.
    destruct_and!. by lookup_dict.
Qed.

Lemma reviews_get_refuses_or_sends self after limit fields authors changes
    has_reviewers ids keywords participants projects states passes_tests
    not_updated_since has_voted my_comments :
  refuses_or_sends (Reviews.swarm self)
    (Reviews.get self after limit fields authors changes has_reviewers ids
       keywords participants projects states passes_tests
       not_updated_since has_voted my_comments).
Proof.
  intros st. destruct (truthy authors) eqn:Hauthors;
    [destruct (Z.lt_ge_cases (api_version (Reviews.swarm self)) 2) |].
  - left. eexists. split; [| by apply reviews_get_fails]. right. by eexists.
  - right. edestruct reviews_get_sends as (p & Hsends & _); eauto.
  - right. edestruct reviews_get_sends as (p & Hsends & _); eauto.
Qed.

Lemma reviews_get_info_sends self review_id fields st :
  ∃ p,
    sends_one (Reviews.swarm self)
      (mkRequest "GET" ("reviews/" +:+ str review_id) (Some p) None None)
      (Reviews.get_info self review_id fields) st ∧
    p !! "fields" = fields_entry fields.
Proof.
  unfold Reviews.get_info, format1. rewrite append_nil_r.
  eexists. split.
  - apply request_mret_sends_one.
  - by lookup_dict.
Qed.

Lemma reviews_get_transitions_fails self review_id up_voters st :
  api_version (Reviews.swarm self) < 9 →
  Reviews.get_transitions self review_id up_voters st =
  (Raise (SwarmCompatibleError "get_transitions is supported with API v9+"),
   st).
Proof.
  intros Hlt. apply Z.ltb_lt in Hlt.
  unfold Reviews.get_transitions. by rewrite Hlt.
Qed.

Lemma reviews_get_transitions_sends self review_id up_voters st :
  9 ≤ api_version (Reviews.swarm self) →
  ∃ p,
    sends_one (Reviews.swarm self)
      (mkRequest "GET" ("reviews/" +:+ str review_id +:+ "/transitions")
         (Some p) None None)
      (Reviews.get_transitions self review_id up_voters) st ∧
    p !! "upVoters" = entry up_voters.
Proof.
  intros Hge. apply Z.ltb_ge in Hge.
  unfold Reviews.get_transitions, format1. rewrite Hge.
  eexists. split.
  - apply request_mret_sends_one.
  - by lookup_dict.
Qed.

Lemma reviews_create_fails_required self change description reviewers
    required_reviewers reviewer_groups st :
  truthy required_reviewers = true → api_version (Reviews.swarm self) = 1 →
  Reviews.create self change description reviewers required_reviewers
    reviewer_groups st =
  (Raise (SwarmCompatibleError
            "required_reviewers field is supported from API version > 1"),
   st).
Proof.
  intros Hreq Hv. unfold Reviews.create, mbind, M_bind.
  by rewrite Hreq, Hv.
Qed.

Lemma reviews_create_fails_groups self change description reviewers
    required_reviewers reviewer_groups st :
  truthy reviewer_groups = true → api_version (Reviews.swarm self) < 7 →
  fails_early compatibility_error
    (Reviews.create self change description reviewers required_reviewers
       reviewer_groups) st.
Proof.
  intros Hgrp Hlt. apply Z.ltb_lt in Hlt.
  unfold fails_early, compatibility_error.
  unfold Reviews.create, mbind, M_bind, mret, M_ret. rewrite Hgrp, Hlt.
  destruct (truthy required_reviewers);
    [destruct (api_version (Reviews.swarm self) =? 1) |]; eauto.
Qed.

Lemma reviews_create_sends self change description reviewers required_reviewers
    reviewer_groups st :
  truthy required_reviewers = false ∨ api_version (Reviews.swarm self) ≠ 1 →
  truthy reviewer_groups = false ∨ 7 ≤ api_version (Reviews.swarm self) →
  ∃ d,
    sends_one (Reviews.swarm self)
      (mkRequest "POST" "reviews" None (Some d) None)
      (Reviews.create self change description reviewers required_reviewers
         reviewer_groups) st ∧
    reviews_create_data d change description reviewers required_reviewers
      reviewer_groups.
Proof.
  intros Hreq Hgrp. unfold Reviews.create, mbind, M_bind, mret, M_ret.
  assert (truthy required_reviewers
            && (api_version (Reviews.swarm self) =? 1) = false) as Hreq'.
  { destruct Hreq as [-> | Hne]; [done |].
    apply Z.eqb_neq in Hne. rewrite Hne. apply andb_false_r. }
  assert (truthy reviewer_groups
            && (api_version (Reviews.swarm self) <? 7) = false) as Hgrp'.
  { destruct Hgrp as [-> | Hge]; [done |].
    apply Z.ltb_ge in Hge. rewrite Hge. apply andb_false_r. }
  unfold reviews_create_data, entry.
  destruct (truthy required_reviewers), (truthy reviewer_groups);
    simpl in Hreq', Hgrp'; rewrite ?Hreq', ?Hgrp';
    (eexists; split; [apply request_sends_one |]);
    repeat apply conj; by lookup_dict.
Qed.

Lemma reviews_archive_fails self not_updated_since description st :
  api_version (Reviews.swarm self) < 6 →
  Reviews.archive self not_updated_since description st =
  (Raise (SwarmCompatibleError "archive is supported with API v6+"), st).
Proof.
  intros Hlt. apply Z.ltb_lt in Hlt. unfold Reviews.archive. by rewrite Hlt.
Qed.

Lemma reviews_archive_sends self not_updated_since description st :
  6 ≤ api_version (Reviews.swarm self) →
  ∃ d,
    sends_one (Reviews.swarm self)
      (mkRequest "POST" "reviews/archive" None (Some d) None)
      (Reviews.archive self not_updated_since description) st ∧
    d !! "notUpdatedSince" = Some (VStr not_updated_since) ∧
    d !! "description" = Some (VStr description).
Proof.
  intros Hge. apply Z.ltb_ge in Hge. unfold Reviews.archive. rewrite Hge.
  eexists. split; [apply request_sends_one |].
  repeat apply conj; by lookup_dict.
Qed.

Lemma reviews_cleanup_fails self review_id reopen st :
  api_version (Reviews.swarm self) < 6 →
  Reviews.cleanup self review_id reopen st =
  (Raise (SwarmCompatibleError "cleanup is supported with API v6+"), st).
Proof.
  intros Hlt. apply Z.ltb_lt in Hlt. unfold Reviews.cleanup. by rewrite Hlt.
Qed.

Lemma reviews_cleanup_sends self review_id reopen st :
  6 ≤ api_version (Reviews.swarm self) →
  ∃ d,
    sends_one (Reviews.swarm self)
      (mkRequest "POST" ("reviews/" +:+ str review_id +:+ "/cleanup")
         None (Some d) None)
      (Reviews.cleanup self review_id reopen) st ∧
    d !! "reopen" = entry reopen.
Proof.
  intros Hge. apply Z.ltb_ge in Hge.
  unfold Reviews.cleanup, format1. rewrite Hge.
  eexists. split.
  - apply request_mret_sends_one.
  - by lookup_dict.
Qed.






(** Each method is refused up front or sends exactly one request. *)
Lemma reviews_get_info_refuses_or_sends self review_id fields :
  refuses_or_sends (Reviews.swarm self)
    (Reviews.get_info self review_id fields).
Proof.
  intros st. right. edestruct reviews_get_info_sends as (p & Hsends & _); eauto.
Qed.

Lemma reviews_get_transitions_refuses_or_sends self review_id up_voters :
  refuses_or_sends (Reviews.swarm self)
    (Reviews.get_transitions self review_id up_voters).
Proof.
  intros st.
  destruct (Z.lt_ge_cases (api_version (Reviews.swarm self)) 9) as [Hlt | Hge].
  - left. eexists. split; [| by apply reviews_get_transitions_fails].
    right. by eexists.
  - right. edestruct reviews_get_transitions_sends as (p & Hsends & _); eauto.
Qed.

Lemma reviews_create_refuses_or_sends self change description reviewers
    required_reviewers reviewer_groups :
  refuses_or_sends (Reviews.swarm self)
    (Reviews.create self change description reviewers required_reviewers
       reviewer_groups).
Proof.
  intros st.
  assert ((truthy required_reviewers = true ∧
           api_version (Reviews.swarm self) = 1) ∨
          (truthy required_reviewers = false ∨
           api_version (Reviews.swarm self) ≠ 1)) as [[Hreq Hv] | Hreq].
  { destruct (truthy required_reviewers);
      [destruct (decide (api_version (Reviews.swarm self) = 1)) |]; auto. }
  { left. eexists. split; [| by apply reviews_create_fails_required].
    right. by eexists. }
  assert ((truthy reviewer_groups = true ∧
           api_version (Reviews.swarm self) < 7) ∨
          (truthy reviewer_groups = false ∨
           7 ≤ api_version (Reviews.swarm self))) as [[Hgrp Hv] | Hgrp].
  { destruct (truthy reviewer_groups);
      [destruct (Z.lt_ge_cases (api_version (Reviews.swarm self)) 7) |];
      auto. }
  - left. apply (fails_early_client compatibility_error); [by right |].
    by apply reviews_create_fails_groups.
  - right. edestruct reviews_create_sends as (d & Hsends & _); eauto.
Qed.

Lemma reviews_archive_refuses_or_sends self not_updated_since description :
  refuses_or_sends (Reviews.swarm self)
    (Reviews.archive self not_updated_since description).
Proof.
  intros st.
  destruct (Z.lt_ge_cases (api_version (Reviews.swarm self)) 6) as [Hlt | Hge].
  - left. eexists. split; [| by apply reviews_archive_fails]. right. by eexists.
  - right. edestruct reviews_archive_sends as (d & Hsends & _); eauto.
Qed.

Lemma reviews_cleanup_refuses_or_sends self review_id reopen :
  refuses_or_sends (Reviews.swarm self)
    (Reviews.cleanup self review_id reopen).
Proof.
  intros st.
  destruct (Z.lt_ge_cases (api_version (Reviews.swarm self)) 6) as [Hlt | Hge].
  - left. eexists. split; [| by apply reviews_cleanup_fails]. right. by eexists.
  - right. edestruct reviews_cleanup_sends as (d & Hsends & _); eauto.
Qed.
End ReviewsFacts.

(** ** Properties of the Reviews endpoints *)

Section ReviewsProperties.
Context {World Response Failure : Type}.
Local Abbreviation State := (State World Response Failure).
Local Abbreviation t := (@Reviews.t World Response Failure).
Implicit Types (self : t) (st : State) (p d : dict).

(** C1.  The three tri-state filters of [Reviews.get], whatever the
    other arguments are.  A call that the [authors] guard refuses sends
    nothing; every other call sends one [GET reviews] request, and in
    its query parameters [hasReviewers] (likewise [passesTests],
    [myComments]) is absent when the filter is [None], is ["0"] when it
    is [False] and is ["1"] when it is [True]. *)
Theorem tristate_filters self after limit fields authors changes
    has_reviewers ids keywords participants projects states passes_tests
    not_updated_since has_voted my_comments st :
  let call :=
    Reviews.get self after limit fields authors changes has_reviewers ids
      keywords participants projects states passes_tests
      not_updated_since has_voted my_comments in
  (truthy authors = true ∧ api_version (Reviews.swarm self) < 2 ∧
   fails_early compatibility_error call st) ∨
  ∃ p,
    sends_one (Reviews.swarm self)
      (mkRequest "GET" "reviews" (Some p) None None) call st ∧
    p !! "hasReviewers" =
      match has_reviewers with
      | None => None
      | Some false => Some (VStr "0")
      | Some true => Some (VStr "1")
      end ∧
    p !! "passesTests" =
      match passes_tests with
      | None => None
      | Some false => Some (VStr "0")
      | Some true => Some (VStr "1")
      end ∧
    p !! "myComments" =
      match my_comments with
      | None => None
      | Some false => Some (VStr "0")
      | Some true => Some (VStr "1")
      end.
Proof.
  intros call.
  assert ((truthy authors = true ∧ api_version (Reviews.swarm self) < 2) ∨
          (truthy authors = false ∨ 2 ≤ api_version (Reviews.swarm self)))
    as [[Hauthors Hlt] | Hguard].
  { destruct (truthy authors);
      [destruct (Z.lt_ge_cases (api_version (Reviews.swarm self)) 2) |];
      auto. }
  - left. split_and!; [done.. |].
    eexists. split; [by eexists | by apply reviews_get_fails].
  - right.
    destruct (reviews_get_sends self after limit fields authors changes
                has_reviewers ids keywords participants projects states
                passes_tests not_updated_since has_voted my_comments st
                Hguard) as (p & Hsends & Hp).
    exists p. split; [done |].
    destruct Hp as (_ & _ & _ & _ & _ & Hrev & _ & _ & _ & _ & _ & Htests
                    & _ & _ & Hmine & _).
    by rewrite Hrev, Htests, Hmine.
Qed.

(** C8.  The renaming [Reviews.get] applies.  A call with a non-empty
    [authors] under a negotiated version below 2 raises a compatibility
    error and sends nothing.  Every other call sends one [GET reviews]
    request in which each value that is given non-empty sits under its
    wire key: [limit] under [max], [fields] joined with commas under
    [fields], [authors] under [author], [changes] under [change],
    [projects] under [project], [states] under [state],
    [not_updated_since] under [notUpdatedSince], [has_voted] under
    [hasVoted]; none of the argument names that were renamed is a key. *)
Theorem renamed_wire_keys self after limit fields authors changes
    has_reviewers ids keywords participants projects states passes_tests
    not_updated_since has_voted my_comments st :
  let call :=
    Reviews.get self after limit fields authors changes has_reviewers ids
      keywords participants projects states passes_tests
      not_updated_since has_voted my_comments in
  (truthy authors = true → api_version (Reviews.swarm self) < 2 →
   fails_early compatibility_error call st) ∧
  (truthy authors = false ∨ 2 ≤ api_version (Reviews.swarm self) →
   ∃ p,
     sends_one (Reviews.swarm self)
       (mkRequest "GET" "reviews" (Some p) None None) call st ∧
     (truthy limit = true → p !! "max" = Some (py limit)) ∧
     (truthy fields = true →
      p !! "fields" = Some (VStr (join "," (default [] fields)))) ∧
     (truthy authors = true → p !! "author" = Some (py authors)) ∧
     (truthy changes = true → p !! "change" = Some (py changes)) ∧
     (truthy projects = true → p !! "project" = Some (py projects)) ∧
     (truthy states = true → p !! "state" = Some (py states)) ∧
     (truthy not_updated_since = true →
      p !! "notUpdatedSince" = Some (py not_updated_since)) ∧
     (truthy has_voted = true → p !! "hasVoted" = Some (py has_voted)) ∧
     Forall (λ name, p !! name = None)
       ["limit"; "authors"; "changes"; "projects"; "states";
        "not_updated_since"; "has_voted"]).
Proof.
  intros call. split.
  - intros Hauthors Hlt.
    eexists. split; [by eexists | by apply reviews_get_fails].
  - intros Hguard.
    destruct (reviews_get_sends self after limit fields authors changes
                has_reviewers ids keywords participants projects states
                passes_tests not_updated_since has_voted my_comments st
                Hguard) as (p & Hsends & Hp).
    exists p. split; [done |].
    destruct Hp as (_ & Hmax & Hfields & Hauthor & Hchange & _ & _ & _ & _
                    & Hproject & Hstate & _ & Hsince & Hvoted & _ & Hother).
    unfold entry, fields_entry in *.
    split_and!; try (intros Hgiven; by rewrite Hgiven in * ).
    repeat constructor; apply Hother; unfold reviews_get_keys;
      rewrite !not_elem_of_cons; split_and!;
      first [discriminate | apply not_elem_of_nil].
Qed.

(** C10.  An empty [authors] list never trips the version guard of
    [Reviews.get]: whatever the negotiated version, the call sends its
    [GET reviews] request, without an [author] key, and the error it may
    end in is not a compatibility error. *)
Theorem empty_authors_not_guarded self after limit fields changes
    has_reviewers ids keywords participants projects states passes_tests
    not_updated_since has_voted my_comments st :
  let call :=
    Reviews.get self after limit fields (Some []) changes has_reviewers ids
      keywords participants projects states passes_tests
      not_updated_since has_voted my_comments in
  (∃ p,
     sends_one (Reviews.swarm self)
       (mkRequest "GET" "reviews" (Some p) None None) call st ∧
     p !! "author" = None) ∧
  ∀ e, (call st).1 = Raise e → ¬ compatibility_error e.
Proof.
  intros call.
  destruct (reviews_get_sends self after limit fields (Some []) changes
              has_reviewers ids keywords participants projects states
              passes_tests not_updated_since has_voted my_comments st)
    as (p & Hsends & Hp); [by left |].
  split.
  - exists p. split; [done |]. by destruct Hp as (_ & _ & _ & -> & _).
  - intros e He Hcompat.
    apply sends_one_calls in Hsends as (r & _ & Hout).
    fold call in Hout. rewrite Hout in He.
    apply answer_not_client_error in He. apply He. by right.
Qed.

(** C5.  [Reviews.get_transitions] under a negotiated version below 9
    raises a compatibility error and sends nothing.  From version 9 on
    it sends one [GET] request to [reviews/{review_id}/transitions],
    whose query parameters hold [upVoters] with the value given exactly
    when [up_voters] is a non-empty string, and it hands back the
    transport's answer. *)
Theorem get_transitions_guard self review_id up_voters st :
  let call := Reviews.get_transitions self review_id up_voters in
  (api_version (Reviews.swarm self) < 9 →
   fails_early compatibility_error call st) ∧
  (9 ≤ api_version (Reviews.swarm self) →
   ∃ p,
     sends_one (Reviews.swarm self)
       (mkRequest "GET"
          ("reviews/" +:+ str_of_int review_id +:+ "/transitions")
          (Some p) None None) call st ∧
     p !! "upVoters" =
       match up_voters with
       | None | Some "" => None
       | Some voters => Some (VStr voters)
       end).
Proof.
  intros call. split.
  - intros Hlt.
    eexists. split; [by eexists | by apply reviews_get_transitions_fails].
  - intros Hge.
    destruct (reviews_get_transitions_sends self review_id up_voters st
                Hge) as (p & Hsends & Hp).
    exists p. split; [done |].
    rewrite Hp. by destruct up_voters as [[|a voters]|].
Qed.

(** C6.  [Reviews.create].  Whatever it sends is a [POST reviews] whose
    payload holds [change] with the value given.  A non-empty
    [required_reviewers] under negotiated version 1, and a non-empty
    [reviewer_groups] under a version below 7, each raise a
    compatibility error with nothing sent.  From version 7 on, a call
    with a non-empty [reviewer_groups] is sent, with the list under
    [reviewerGroups]. *)
Theorem create_guards self change description reviewers required_reviewers
    reviewer_groups st :
  let call :=
    Reviews.create self change description reviewers required_reviewers
      reviewer_groups in
  (fails_early compatibility_error call st ∨
   ∃ d,
     sends_one (Reviews.swarm self)
       (mkRequest "POST" "reviews" None (Some d) None) call st ∧
     d !! "change" = Some (VInt change)) ∧
  (truthy required_reviewers = true → api_version (Reviews.swarm self) = 1 →
   fails_early compatibility_error call st) ∧
  (truthy reviewer_groups = true → api_version (Reviews.swarm self) < 7 →
   fails_early compatibility_error call st) ∧
  (truthy reviewer_groups = true → 7 ≤ api_version (Reviews.swarm self) →
   ∃ d,
     sends_one (Reviews.swarm self)
       (mkRequest "POST" "reviews" None (Some d) None) call st ∧
     d !! "change" = Some (VInt change) ∧
     d !! "reviewerGroups" = Some (py reviewer_groups)).
Proof.
  intros call.
  assert (truthy required_reviewers = true →
          api_version (Reviews.swarm self) = 1 →
          fails_early compatibility_error call st) as Hrequired.
  { intros Hreq Hv.
    eexists. split; [by eexists | by apply reviews_create_fails_required]. }
  assert (truthy reviewer_groups = true →
          api_version (Reviews.swarm self) < 7 →
          fails_early compatibility_error call st) as Hgroups.
  { intros Hgrp Hlt. by apply reviews_create_fails_groups. }
  split_and!; [| done | done |].
  - assert ((truthy required_reviewers = true ∧
             api_version (Reviews.swarm self) = 1) ∨
            (truthy required_reviewers = false ∨
             api_version (Reviews.swarm self) ≠ 1)) as [[Hreq Hv] | Hreq].
    { destruct (truthy required_reviewers);
        [destruct (decide (api_version (Reviews.swarm self) = 1)) |]; auto. }
    { left. by apply Hrequired. }
    assert ((truthy reviewer_groups = true ∧
             api_version (Reviews.swarm self) < 7) ∨
            (truthy reviewer_groups = false ∨
             7 ≤ api_version (Reviews.swarm self))) as [[Hgrp Hv] | Hgrp].
    { destruct (truthy reviewer_groups);
        [destruct (Z.lt_ge_cases (api_version (Reviews.swarm self)) 7) |];
        auto. }
    { left. by apply Hgroups. }
    right.
    destruct (reviews_create_sends self change description reviewers
                required_reviewers reviewer_groups st Hreq Hgrp)
      as (d & Hsends & Hchange & _).
    by exists d.
  - intros Hgrp Hge.
    destruct (reviews_create_sends self change description reviewers
                required_reviewers reviewer_groups st)
      as (d & Hsends & Hchange & _ & _ & _ & Hgroups');
      [right; lia | by right |].
    exists d. split_and!; [done.. |].
    rewrite Hgroups'. unfold entry. by rewrite Hgrp.
Qed.
End ReviewsProperties.

(** ** Properties of the Groups endpoints *)

Section GroupsProperties.
Context {World Response Failure : Type}.
Local Abbreviation Swarm := (Swarm World Response Failure).
Local Abbreviation State := (State World Response Failure).
Local Abbreviation t := (@Groups.t World Response Failure).
Implicit Types (self : t) (st : State) (p d : dict).


(** C3, amended.  A call of [Groups.create] with [users], [owners] and
    [subgroups] all unset or empty, made through a client whose
    negotiated version is at least 2, raises a validation error and
    sends nothing; a call with one of them non-empty raises no
    validation error, whatever the version. *)
Theorem required_fields self identifier users owners subgroups name
    description email_address notify_reviews notify_commits use_mailing_list
    max_results max_scan_rows max_lock_time max_open_files max_memory
    timeout password_timeout st :
  required_fields_checked (λ swarm, 2 ≤ api_version swarm)
    self identifier users owners subgroups name
    description email_address notify_reviews notify_commits
    use_mailing_list max_results max_scan_rows max_lock_time max_open_files
    max_memory timeout password_timeout st.
Proof.
  split.
  - intros Hge Hnone. eexists. split; [by eexists |].
    by apply groups_create_fails_required.
  - intros Hsome e He [msg ->].
    destruct (Z.lt_ge_cases (api_version (Groups.swarm self)) 2)
      as [Hlt | Hge].
    + unfold Groups.create in He.
      edestruct (minimal_version_fails (A:=Response) 2 (Groups.swarm self))
        as (e' & [msg' ->] & Hrun); [exact Hlt |].
      rewrite Hrun in He. discriminate.
    + destruct (groups_create_sends (World:=World) (Response:=Response)
                  (Failure:=Failure) identifier users owners subgroups
                  name description email_address notify_reviews
                  notify_commits use_mailing_list max_results max_scan_rows
                  max_lock_time max_open_files max_memory timeout
                  password_timeout Hsome) as (d & _ & Hsends).
      destruct (sends_one_calls _ _ _ _ (Hsends self st Hge))
        as (r & _ & Hout).
      rewrite Hout in He.
      apply answer_not_client_error in He. apply He. left. by eexists.
Qed.
End GroupsProperties.

(** ** Properties of every operation *)

Section Operations.
Context {World Response Failure : Type}.
Local Abbreviation Swarm := (Swarm World Response Failure).
Local Abbreviation State := (State World Response Failure).
Local Abbreviation M := (M World Response Failure).
Local Abbreviation groups := (@Groups.t World Response Failure).
Local Abbreviation reviews := (@Reviews.t World Response Failure).

Lemma refuses_or_sends_atomic (swarm : Swarm) (m : M Response) :
  refuses_or_sends swarm m → atomic swarm m.
Proof.
  intros Hm st. split; [apply Hm |].
  intros e He Hclient. destruct (Hm st) as [Hfail | [req Hsends]].
  - by apply fails_early_calls in Hfail.
  - apply sends_one_calls in Hsends as (r & _ & Hout).
    rewrite Hout in He. by apply answer_not_client_error in He.
Qed.


(** What follows the fetch runs on the metadata of the answer, with the
    fetch recorded; a failed fetch ends the call. *)
Lemma bind_fetch {A} fetch_method fetch_path (metadata : Response → Version)
    (swarm : Swarm) (k : Version → M A) (st : State) :
  (version ← Fetching.get_version fetch_method fetch_path metadata swarm;
   k version) st =
  match
    transport swarm (mkRequest fetch_method fetch_path None None None)
      (world st)
  with
  | (inl v, w) =>
      k (metadata v)
        (mkState w
           (calls st ++
            [mkCall (mkRequest fetch_method fetch_path None None None)
               (inl v)]))
  | (inr f, w) =>
      (Raise (TransportError f),
       mkState w
         (calls st ++
          [mkCall (mkRequest fetch_method fetch_path None None None)
             (inr f)]))
  end.
Proof.
  unfold Fetching.get_version, mbind, M_bind, _request, mret, M_ret.
  cbv zeta.
  by destruct (transport swarm _ (world st)) as [[v | f] w].
Qed.

(** [Groups.create] over a fetching client: refused before anything is
    sent, or the fetch and then one request. *)
Lemma fetching_create_atomic fetch_method fetch_path
    (metadata : Response → Version) (self : groups) identifier users owners
    subgroups name description email_address notify_reviews notify_commits
    use_mailing_list max_results max_scan_rows max_lock_time max_open_files
    max_memory timeout password_timeout :
  atomic_after_fetch (Groups.swarm self)
    (mkRequest fetch_method fetch_path None None None)
    (Fetching.create fetch_method fetch_path metadata self identifier users
       owners subgroups name description email_address notify_reviews
       notify_commits use_mailing_list max_results max_scan_rows
       max_lock_time max_open_files max_memory timeout password_timeout).
Proof.
  intros st.
  match goal with |- ?P ∧ _ => assert (Hcases : P) end.
  { unfold Fetching.create.
    destruct (Z.lt_ge_cases (api_version (Groups.swarm self)) 2)
      as [Hlt | Hge].
    - left. apply (fails_early_client compatibility_error); [by right |].
      by apply minimal_version_fails.
    - rewrite minimal_version_passes by done.
      destruct (truthy users || truthy owners || truthy subgroups);
        simpl negb; cbv iota.
      + right. unfold fetches_then_sends. rewrite bind_fetch.
        destruct (transport (Groups.swarm self)
                    (mkRequest fetch_method fetch_path None None None)
                    (world st)) as [[v | f] w] eqn:Hfetch.
        * exists (inl v), w. split; [reflexivity |].
          destruct (contains 11 (apiVersions (metadata v)));
            unfold _request; cbn [world calls];
            match goal with
            | |- context [transport ?sw ?req w] =>
                destruct (transport sw req w) as [r w'] eqn:Hsend;
                exists req, r, w'; split; [exact Hsend |];
                by rewrite <- (assoc_L (++))
            end.
        * exists (inr f), w. split; reflexivity.
      + left. eexists. split; [left; by eexists | reflexivity]. }
  split; [exact Hcases |].
  intros e He Hclient. destruct Hcases as [Hfail | (v & w & _ & Hrun)].
  - by apply fails_early_calls in Hfail.
  - destruct v as [v | f].
    + destruct Hrun as (req & r & w' & _ & Hrun). rewrite Hrun in He.
      by apply answer_not_client_error in He.
    + rewrite Hrun in He. injection He as <-.
      destruct Hclient as [[msg Hmsg] | [msg Hmsg]]; discriminate.
Qed.

(** C7, amended.  Every operation of Groups and Reviews other than
    [Groups.create] is atomic with respect to the transport: it raises
    a validation or compatibility error before the request method is
    called at all, or it calls the request method exactly once and
    returns its result; no call ends in one of these errors with a
    request sent.  [Groups.create], with its version metadata fetched
    through the request method, raises one of these errors before the
    request method is called at all, or it fetches the metadata and,
    unless the fetch fails, calls the request method exactly once more
    and returns the result of that call; it, too, never ends in one of
    these errors with a request sent. *)
Theorem operations_atomic :
  (∀ (self : groups) after limit fields keywords,
     atomic (Groups.swarm self)
       (Groups.get self after limit fields keywords)) ∧
  (∀ (self : groups) identifier fields,
     atomic (Groups.swarm self) (Groups.get_info self identifier fields)) ∧
  (∀ fetch_method fetch_path (metadata : Response → Version)
     (self : groups) identifier users owners subgroups name description
     email_address notify_reviews notify_commits use_mailing_list max_results
     max_scan_rows max_lock_time max_open_files max_memory timeout
     password_timeout,
     atomic_after_fetch (Groups.swarm self)
       (mkRequest fetch_method fetch_path None None None)
       (Fetching.create fetch_method fetch_path metadata self identifier
          users owners subgroups name description email_address
          notify_reviews notify_commits use_mailing_list max_results
          max_scan_rows max_lock_time max_open_files max_memory timeout
          password_timeout)) ∧
  (∀ (self : groups) identifier users owners subgroups name description email_address
     notify_reviews notify_commits use_mailing_list,
     atomic (Groups.swarm self)
       (Groups.edit self identifier users owners subgroups name description
          email_address notify_reviews notify_commits use_mailing_list)) ∧
  (∀ (self : groups) identifier,
     atomic (Groups.swarm self) (Groups.delete self identifier)) ∧
  (∀ (self : reviews) after limit fields authors changes has_reviewers ids keywords
     participants projects states passes_tests not_updated_since has_voted
     my_comments,
     atomic (Reviews.swarm self)
       (Reviews.get self after limit fields authors changes has_reviewers
          ids keywords participants projects states passes_tests
          not_updated_since has_voted my_comments)) ∧
  (∀ (self : reviews) review_id fields,
     atomic (Reviews.swarm self) (Reviews.get_info self review_id fields)) ∧
  (∀ (self : reviews) review_id up_voters,
     atomic (Reviews.swarm self)
       (Reviews.get_transitions self review_id up_voters)) ∧
  (∀ (self : reviews) change description reviewers required_reviewers reviewer_groups,
     atomic (Reviews.swarm self)
       (Reviews.create self change description reviewers required_reviewers
          reviewer_groups)) ∧
  (∀ (self : reviews) not_updated_since description,
     atomic (Reviews.swarm self)
       (Reviews.archive self not_updated_since description)) ∧
  (∀ (self : reviews) review_id reopen,
     atomic (Reviews.swarm self) (Reviews.cleanup self review_id reopen)).
Proof.
  split_and!; intros; try apply fetching_create_atomic;
    apply refuses_or_sends_atomic.
  - apply groups_get_refuses_or_sends.
  - apply groups_get_info_refuses_or_sends.
  - apply groups_edit_refuses_or_sends.
  - apply groups_delete_refuses_or_sends.
  - apply reviews_get_refuses_or_sends.
  - apply reviews_get_info_refuses_or_sends.
  - apply reviews_get_transitions_refuses_or_sends.
  - apply reviews_create_refuses_or_sends.
  - apply reviews_archive_refuses_or_sends.
  - apply reviews_cleanup_refuses_or_sends.
Qed.

End Operations.

(** ** Which keys a request carries *)

Section WireKeys.
Context {World Response Failure : Type}.
Local Abbreviation Swarm := (Swarm World Response Failure).
Local Abbreviation State := (State World Response Failure).
Local Abbreviation M := (M World Response Failure).
Local Abbreviation groups := (@Groups.t World Response Failure).
Local Abbreviation reviews := (@Reviews.t World Response Failure).





End WireKeys.

(** ** The operations on the mock client *)

Section Examples.
Let reviews (version : Z) := Reviews.mk (Mock.swarm version [version]).
Let groups (version : Z) (versions : list Z) :=
  Groups.mk (Mock.swarm version versions).

Example str_of_int_42 : str_of_int 42 = "42" ∧ str_of_int (-7) = "-7".
Proof. done. Qed.

Example join_fields_two : join_fields (Some ["id"; "author"]) = "id,author".
Proof. done. Qed.

Example get_transitions_v8 :
  Reviews.get_transitions (reviews 8) 42 (Some "bob") Mock.start =
  (Raise (SwarmCompatibleError "get_transitions is supported with API v9+"),
   Mock.start).
Proof. done. Qed.

Example get_transitions_v9 :
  let req :=
    mkRequest "GET" "reviews/42/transitions"
      (Some {[ "upVoters" := VStr "bob" ]}) None None in
  Reviews.get_transitions (reviews 9) 42 (Some "bob") Mock.start =
  (Return req, mkState 1%nat [mkCall req (inl req)]).
Proof. by vm_compute. Qed.

Example create_reviewer_groups_v6 :
  Reviews.create (reviews 6) 1234 None None None (Some ["qa"]) Mock.start =
  (Raise (SwarmCompatibleError
            "reviewer_groups field is supported from API version > 6"),
   Mock.start).
Proof. done. Qed.

Example create_reviewer_groups_v7 :
  let req :=
    mkRequest "POST" "reviews" None
      (Some {[ "change" := VInt 1234; "reviewerGroups" := VStrList ["qa"] ]})
      None in
  Reviews.create (reviews 7) 1234 None None None (Some ["qa"]) Mock.start =
  (Return req, mkState 1%nat [mkCall req (inl req)]).
Proof. by vm_compute. Qed.

Example get_tristate :
  let req :=
    mkRequest "GET" "reviews"
      (Some {[ "hasReviewers" := VStr "0"; "myComments" := VStr "1" ]})
      None None in
  Reviews.get (reviews 9) None None None None None (Some false) None None
    None None None None None None (Some true) Mock.start =
  (Return req, mkState 1%nat [mkCall req (inl req)]).
Proof. by vm_compute. Qed.

Example get_renames :
  let req :=
    mkRequest "GET" "reviews"
      (Some {[ "max" := VInt 5; "fields" := VStr "id,author";
               "author" := VStrList ["bob"]; "change" := VIntList [7; 8];
               "state" := VStrList ["needsReview"] ]})
      None None in
  Reviews.get (reviews 9) None (Some 5) (Some ["id"; "author"])
    (Some ["bob"]) (Some [7; 8]) None None None None None
    (Some ["needsReview"]) None None None None Mock.start =
  (Return req, mkState 1%nat [mkCall req (inl req)]).
Proof. by vm_compute. Qed.

Example groups_create_json :
  let req :=
    mkRequest "POST" "groups" None None
      (Some {[ "Group" := VStr "dev"; "Users" := VStrList ["alice"] ]}) in
  Groups.create (groups 9 [9; 10; 11]) "dev" (Some ["alice"]) None None None
    None None None None None None None None None None None None Mock.start =
  (Return req, mkState 1%nat [mkCall req (inl req)]).
Proof. by vm_compute. Qed.

Example groups_create_form :
  let req :=
    mkRequest "POST" "groups" None
      (Some {[ "Group" := VStr "dev"; "Users" := VStrList ["alice"] ]})
      None in
  Groups.create (groups 9 [8; 9]) "dev" (Some ["alice"]) None None None
    None None None None None None None None None None None None Mock.start =
  (Return req, mkState 1%nat [mkCall req (inl req)]).
Proof. by vm_compute. Qed.

Example groups_create_empty :
  Groups.create (groups 9 [9]) "dev" (Some []) (Some []) (Some []) None
    None None None None None None None None None None None None Mock.start =
  (Raise (SwarmError
            "At least one of users, owners, or subgroups is required"),
   Mock.start).
Proof. done. Qed.

Example fetching_create_json :
  let fetch := mkRequest "GET" "version" None None None in
  let req :=
    mkRequest "POST" "groups" None None
      (Some {[ "Group" := VStr "dev"; "Users" := VStrList ["alice"] ]}) in
  Fetching.create "GET" "version" (Mock.metadata [9; 10; 11])
    (groups 9 [9; 10; 11]) "dev" (Some ["alice"]) None None None None None
    None None None None None None None None None None Mock.start =
  (Return req,
   mkState 2%nat [mkCall fetch (inl fetch); mkCall req (inl req)]).
Proof. by vm_compute. Qed.

Example fetching_create_empty :
  Fetching.create "GET" "version" (Mock.metadata [9]) (groups 9 [9]) "dev"
    (Some []) (Some []) (Some []) None None None None None None None None
    None None None None None Mock.start =
  (Raise (SwarmError
            "At least one of users, owners, or subgroups is required"),
   Mock.start).
Proof. done. Qed.
End Examples.

(** ** Where the specification and the code part *)



(** C3, as stated, fails.  Under negotiated version 1 a call of
    [Groups.create] without users, owners or subgroups raises the
    compatibility error of the version guard, not a validation error. *)
Lemma required_fields_counterexample :
  ¬ required_fields_checked (λ _, True) (Groups.mk (Mock.swarm 1 [1])) "dev"
      None None None None None None None None None None None None None None
      None None Mock.start.
Proof.
  intros [Hnone _]. destruct (Hnone I eq_refl) as (e & [msg ->] & Hrun).
  vm_compute in Hrun. discriminate.
Qed.


(** C7, as stated, fails for [Groups.create].  With the version
    metadata fetched through the request method, a call that names a
    user under negotiated version 9 is not refused, and it does not stop
    at one request: the transport receives the fetch and then the
    [POST]. *)
Lemma operations_atomic_counterexample :
  ¬ atomic (Mock.swarm 9 [9])
      (Fetching.create "GET" "version" (Mock.metadata [9])
         (Groups.mk (Mock.swarm 9 [9])) "dev" (Some ["alice"]) None None
         None None None None None None None None None None None None None).
Proof.
  intros Hatomic.
  destruct (Hatomic Mock.start) as [[Hfail | [req Hsends]] _].
  - destruct Hfail as (e & _ & Hrun). vm_compute in Hrun. discriminate.
  - apply sends_one_calls in Hsends as (r & Hcalls & _).
    vm_compute in Hcalls. discriminate.
Qed.

(** ** The properties at work on the mock client *)

(** C1 on a call with [has_reviewers=False], [my_comments=True] and
    [passes_tests] left out. *)
Lemma tristate_filters_witness :
  ∃ p,
    sends_one (Mock.swarm 9 [9])
      (mkRequest "GET" "reviews" (Some p) None None)
      (Reviews.get (Reviews.mk (Mock.swarm 9 [9])) None None None None None
         (Some false) None None None None None None None None (Some true))
      Mock.start ∧
    p !! "hasReviewers" = Some (VStr "0") ∧
    p !! "passesTests" = None ∧
    p !! "myComments" = Some (VStr "1").
Proof.
  destruct (tristate_filters (Reviews.mk (Mock.swarm 9 [9])) None None None
              None None (Some false) None None None None None None None None
              (Some true) Mock.start) as [(Hauthors & _) | Hsends].
  - discriminate Hauthors.
  - exact Hsends.
Defined.

(** C8 on a call that asks for five reviews of two authors. *)
Lemma renamed_wire_keys_witness :
  ∃ p,
    sends_one (Mock.swarm 9 [9])
      (mkRequest "GET" "reviews" (Some p) None None)
      (Reviews.get (Reviews.mk (Mock.swarm 9 [9])) None (Some 5)
         (Some ["id"; "author"]) (Some ["bob"; "eve"]) None None None None
         None None None None None None None)
      Mock.start ∧
    p !! "max" = Some (VInt 5) ∧
    p !! "fields" = Some (VStr "id,author") ∧
    p !! "author" = Some (VStrList ["bob"; "eve"]) ∧
    p !! "limit" = None ∧
    p !! "authors" = None.
Proof.
  destruct (proj2 (renamed_wire_keys (Reviews.mk (Mock.swarm 9 [9])) None
                     (Some 5) (Some ["id"; "author"]) (Some ["bob"; "eve"])
                     None None None None None None None None None None None
                     Mock.start))
    as (p & Hsends & Hmax & Hfields & Hauthor & _ & _ & _ & _ & _ & Hnames).
  - right. discriminate.
  - exists p. repeat apply conj.
    + exact Hsends.
    + exact (Hmax eq_refl).
    + exact (Hfields eq_refl).
    + exact (Hauthor eq_refl).
    + exact (Forall_inv Hnames).
    + exact (Forall_inv (Forall_inv_tail Hnames)).
Defined.

(** C10 under negotiated version 1. *)
Lemma empty_authors_not_guarded_witness :
  ∃ p,
    sends_one (Mock.swarm 1 [1])
      (mkRequest "GET" "reviews" (Some p) None None)
      (Reviews.get (Reviews.mk (Mock.swarm 1 [1])) None None None (Some [])
         None None None None None None None None None None None)
      Mock.start ∧
    p !! "author" = None.
Proof.
  exact (proj1 (empty_authors_not_guarded (Reviews.mk (Mock.swarm 1 [1])) None
                  None None None None None None None None None None None None
                  None Mock.start)).
Defined.

(** C5 under negotiated version 9, with [up_voters="bob"]. *)
Lemma get_transitions_guard_witness :
  ∃ p,
    sends_one (Mock.swarm 9 [9])
      (mkRequest "GET" "reviews/42/transitions" (Some p) None None)
      (Reviews.get_transitions (Reviews.mk (Mock.swarm 9 [9])) 42
         (Some "bob"))
      Mock.start ∧
    p !! "upVoters" = Some (VStr "bob").
Proof.
  apply (proj2 (get_transitions_guard (Reviews.mk (Mock.swarm 9 [9])) 42
                  (Some "bob") Mock.start)).
  discriminate.
Defined.

(** C6 under negotiated version 7, with a reviewer group. *)
Lemma create_guards_witness :
  ∃ d,
    sends_one (Mock.swarm 7 [7])
      (mkRequest "POST" "reviews" None (Some d) None)
      (Reviews.create (Reviews.mk (Mock.swarm 7 [7])) 1234 None None None
         (Some ["qa"]))
      Mock.start ∧
    d !! "change" = Some (VInt 1234) ∧
    d !! "reviewerGroups" = Some (VStrList ["qa"]).
Proof.
  apply (proj2 (proj2 (proj2
           (create_guards (Reviews.mk (Mock.swarm 7 [7])) 1234 None None None
              (Some ["qa"]) Mock.start)))).
  - reflexivity.
  - discriminate.
Defined.

(** C3, amended, under negotiated version 2. *)
Lemma required_fields_witness :
  fails_early validation_error
    (Groups.create (Groups.mk (Mock.swarm 2 [2])) "dev" None (Some []) None
       None None None None None None None None None None None None None)
    Mock.start.
Proof.
  apply (proj1 (required_fields (Groups.mk (Mock.swarm 2 [2])) "dev" None
                  (Some []) None None None None None None None None None None
                  None None None None Mock.start)).
  - discriminate.
  - reflexivity.
Defined.


(** C7, amended, on two calls that are not refused: [Groups.create]
    under negotiated version 9 fetches the metadata and then sends, and
    [Reviews.cleanup] under negotiated version 6 sends its one
    request. *)
Lemma operations_atomic_witness :
  fetches_then_sends (Mock.swarm 9 [11])
    (mkRequest "GET" "version" None None None)
    (Fetching.create "GET" "version" (Mock.metadata [11])
       (Groups.mk (Mock.swarm 9 [11])) "dev" (Some ["alice"]) None None None
       None None None None None None None None None None None None)
    Mock.start ∧
  ∃ req,
    sends_one (Mock.swarm 6 [6]) req
      (Reviews.cleanup (Reviews.mk (Mock.swarm 6 [6])) 42 (Some true))
      Mock.start.
Proof.
  split.
  - destruct (proj1 (proj1 (proj2 (proj2 operations_atomic)) "GET" "version"
                       (Mock.metadata [11]) (Groups.mk (Mock.swarm 9 [11]))
                       "dev" (Some ["alice"]) None None None None None None
                       None None None None None None None None None
                       Mock.start))
      as [(e & _ & Hrun) | Hsends].
    + vm_compute in Hrun. discriminate.
    + exact Hsends.
  - destruct (proj1 (proj2 (proj2 (proj2 (proj2 (proj2 (proj2 (proj2 (proj2
                (proj2 (proj2 operations_atomic)))))))))
                (Reviews.mk (Mock.swarm 6 [6])) 42 (Some true) Mock.start))
      as [(e & _ & Hrun) | Hsends].
    + vm_compute in Hrun. discriminate.
    + exact Hsends.
Defined.


(** ** The request of a call, from its arguments alone *)

(** Shows that a dictionary built by conditional stores holds nothing
    outside the listed keys. *)
Ltac only_keys_dict :=
  let k := fresh "k" in
  let Hk := fresh "Hk" in
  intros k Hk;
  cbv [groups_get_keys groups_edit_keys groups_create_keys
       reviews_get_keys reviews_create_keys app] in Hk;
  rewrite !not_elem_of_cons in Hk; destruct_and!; by lookup_dict.

Section Requests.
Context {World Response Failure : Type}.
Local Abbreviation Swarm := (Swarm World Response Failure).
Local Abbreviation State := (State World Response Failure).
Local Abbreviation M := (M World Response Failure).
Local Abbreviation groups := (@Groups.t World Response Failure).
Local Abbreviation reviews := (@Reviews.t World Response Failure).
Implicit Types (st : State) (p d : dict).

Lemma request_sends_directly (swarm : Swarm) meth pth ps bd js st :
  sends_directly swarm (mkRequest meth pth ps bd js)
    (_request swarm meth pth ps bd js) st.
Proof. unfold sends_directly, _request. by destruct (transport _ _ _). Qed.

Lemma request_mret_sends_directly (swarm : Swarm) meth pth ps bd js st :
  sends_directly swarm (mkRequest meth pth ps bd js)
    (response ← _request swarm meth pth ps bd js; mret response) st.
Proof.
  unfold sends_directly. rewrite bind_mret. apply request_sends_directly.
Qed.

Lemma sends_directly_one (swarm : Swarm) req (m : M Response) st :
  sends_directly swarm req m st → sends_one swarm req m st.
Proof.
  intros Hrun. exists (world st). do 2 eexists. split; [| exact Hrun].
  by destruct (transport _ _ _).
Qed.

Lemma sends_after_version_one (swarm : Swarm) req (m : M Response) st :
  sends_after_version swarm req m st → sends_one swarm req m st.
Proof.
  intros Hrun. exists (get_version swarm (world st)).2. do 2 eexists.
  split; [| exact Hrun]. by destruct (transport _ _ _).
Qed.

Lemma groups_get_request after limit fields keywords :
  ∃ p,
    groups_get_params p after limit fields keywords ∧
    only_keys groups_get_keys p ∧
    ∀ (self : groups) st,
      2 ≤ api_version (Groups.swarm self) →
      sends_directly (Groups.swarm self)
        (mkRequest "GET" "groups" (Some p) None None)
        (Groups.get self after limit fields keywords) st.
Proof.
  eexists. split; last split; revgoals.
  - intros self st Hge. unfold Groups.get.
    rewrite minimal_version_passes by done. apply request_sends_directly.
  - only_keys_dict.
  - unfold groups_get_params, entry, fields_entry.
    repeat apply conj; by lookup_dict.
Qed.

Lemma groups_get_info_request identifier fields :
  ∃ p,
    p !! "fields" = fields_entry fields ∧
    only_keys ["fields"] p ∧
    ∀ (self : groups) st,
      2 ≤ api_version (Groups.swarm self) →
      sends_directly (Groups.swarm self)
        (mkRequest "GET" ("groups/" +:+ identifier) (Some p) None None)
        (Groups.get_info self identifier fields) st.
Proof.
  eexists. split; last split; revgoals.
  - intros self st Hge. unfold Groups.get_info, format1.
    rewrite minimal_version_passes by done. rewrite append_nil_r.
    apply request_mret_sends_directly.
  - only_keys_dict.
  - unfold fields_entry. by lookup_dict.
Qed.


Lemma groups_edit_request identifier users owners subgroups name description
    email_address notify_reviews notify_commits use_mailing_list :
  ∃ d,
    groups_settings d users owners subgroups name description email_address
      notify_reviews notify_commits use_mailing_list ∧
    only_keys groups_edit_keys d ∧
    ∀ (self : groups) st,
      2 ≤ api_version (Groups.swarm self) →
      sends_directly (Groups.swarm self)
        (mkRequest "PATCH" ("groups/" +:+ identifier) None (Some d) None)
        (Groups.edit self identifier users owners subgroups name description
           email_address notify_reviews notify_commits use_mailing_list) st.
Proof.
  eexists. split; last split; revgoals.
  - intros self st Hge. unfold Groups.edit, format1.
    rewrite minimal_version_passes by done. rewrite append_nil_r.
    apply request_mret_sends_directly.
  - only_keys_dict.
  - unfold groups_settings, entry. repeat apply conj; by lookup_dict.
Qed.


Lemma reviews_get_request after limit fields authors changes has_reviewers
    ids keywords participants projects states passes_tests not_updated_since
    has_voted my_comments :
  ∃ p,
    reviews_get_params p after limit fields authors changes has_reviewers ids
      keywords participants projects states passes_tests not_updated_since
      has_voted my_comments ∧
    ∀ (self : reviews) st,
      truthy authors = false ∨ 2 ≤ api_version (Reviews.swarm self) →
      sends_directly (Reviews.swarm self)
        (mkRequest "GET" "reviews" (Some p) None None)
        (Reviews.get self after limit fields authors changes has_reviewers
           ids keywords participants projects states passes_tests
           not_updated_since has_voted my_comments) st.
Proof.
  destruct (truthy authors) eqn:Hauthors.
  - eexists. split; last first.
    + intros self st [| Hge]; [done |]. apply Z.ltb_ge in Hge.
      unfold Reviews.get, mbind, M_bind, mret, M_ret.
      rewrite Hauthors, Hge. apply request_sends_directly.
    + unfold reviews_get_params, entry, fields_entry. rewrite Hauthors.
      repeat apply conj; try by lookup_dict. only_keys_dict.
  - eexists. split; last first.
    + intros self st _.
      unfold Reviews.get, mbind, M_bind, mret, M_ret.
      rewrite Hauthors. apply request_sends_directly.
    + unfold reviews_get_params, entry, fields_entry. rewrite Hauthors.
      repeat apply conj; try by lookup_dict. only_keys_dict.
Qed.

Lemma reviews_get_info_request review_id fields :
  ∃ p,
    p !! "fields" = fields_entry fields ∧
    only_keys ["fields"] p ∧
    ∀ (self : reviews) st,
      sends_directly (Reviews.swarm self)
        (mkRequest "GET" ("reviews/" +:+ str_of_int review_id) (Some p)
           None None)
        (Reviews.get_info self review_id fields) st.
Proof.
  eexists. split; last split; revgoals.
  - intros self st. unfold Reviews.get_info, format1. rewrite append_nil_r.
    apply request_mret_sends_directly.
  - only_keys_dict.
  - unfold fields_entry. by lookup_dict.
Qed.

Lemma reviews_get_transitions_request review_id up_voters :
  ∃ p,
    p !! "upVoters" = entry up_voters ∧
    only_keys ["upVoters"] p ∧
    ∀ (self : reviews) st,
      9 ≤ api_version (Reviews.swarm self) →
      sends_directly (Reviews.swarm self)
        (mkRequest "GET"
           ("reviews/" +:+ str_of_int review_id +:+ "/transitions")
           (Some p) None None)
        (Reviews.get_transitions self review_id up_voters) st.
Proof.
  eexists. split; last split; revgoals.
  - intros self st Hge. apply Z.ltb_ge in Hge.
    unfold Reviews.get_transitions, format1. rewrite Hge.
    apply request_mret_sends_directly.
  - only_keys_dict.
  - unfold entry. by lookup_dict.
Qed.

Lemma reviews_create_request change description reviewers required_reviewers
    reviewer_groups :
  ∃ d,
    reviews_create_data d change description reviewers required_reviewers
      reviewer_groups ∧
    only_keys reviews_create_keys d ∧
    ∀ (self : reviews) st,
      truthy required_reviewers = false ∨
        api_version (Reviews.swarm self) ≠ 1 →
      truthy reviewer_groups = false ∨ 7 ≤ api_version (Reviews.swarm self) →
      sends_directly (Reviews.swarm self)
        (mkRequest "POST" "reviews" None (Some d) None)
        (Reviews.create self change description reviewers required_reviewers
           reviewer_groups) st.
Proof.
  destruct (truthy required_reviewers) eqn:Hreq,
    (truthy reviewer_groups) eqn:Hgrp.
  all: eexists; split; last split; revgoals;
    [ intros self st Hreq' Hgrp';
      unfold Reviews.create, mbind, M_bind, mret, M_ret;
      rewrite Hreq, Hgrp;
      try (destruct Hreq' as [| Hne]; [done |];
           apply Z.eqb_neq in Hne; rewrite Hne);
      try (destruct Hgrp' as [| Hge]; [done |];
           apply Z.ltb_ge in Hge; rewrite Hge);
      apply request_sends_directly
    | only_keys_dict
    | unfold reviews_create_data, entry; rewrite Hreq, Hgrp;
      repeat apply conj; by lookup_dict ].
Qed.

Lemma reviews_archive_request not_updated_since description :
  ∃ d,
    d !! "notUpdatedSince" = Some (VStr not_updated_since) ∧
    d !! "description" = Some (VStr description) ∧
    only_keys ["notUpdatedSince"; "description"] d ∧
    ∀ (self : reviews) st,
      6 ≤ api_version (Reviews.swarm self) →
      sends_directly (Reviews.swarm self)
        (mkRequest "POST" "reviews/archive" None (Some d) None)
        (Reviews.archive self not_updated_since description) st.
Proof.
  eexists. split; last split; last split; revgoals.
  - intros self st Hge. apply Z.ltb_ge in Hge.
    unfold Reviews.archive. rewrite Hge. apply request_sends_directly.
  - only_keys_dict.
  - by lookup_dict.
  - by lookup_dict.
Qed.

Lemma reviews_cleanup_request review_id reopen :
  ∃ d,
    d !! "reopen" = entry reopen ∧
    only_keys ["reopen"] d ∧
    ∀ (self : reviews) st,
      6 ≤ api_version (Reviews.swarm self) →
      sends_directly (Reviews.swarm self)
        (mkRequest "POST" ("reviews/" +:+ str_of_int review_id +:+ "/cleanup")
           None (Some d) None)
        (Reviews.cleanup self review_id reopen) st.
Proof.
  eexists. split; last split; revgoals.
  - intros self st Hge. apply Z.ltb_ge in Hge.
    unfold Reviews.cleanup, format1. rewrite Hge.
    apply request_mret_sends_directly.
  - only_keys_dict.
  - unfold entry. by lookup_dict.
Qed.
End Requests.

(** ** Further properties of the Groups endpoints *)

Section GroupsExtras.
Context {World Response Failure : Type}.
Local Abbreviation State := (State World Response Failure).
Local Abbreviation groups := (@Groups.t World Response Failure).
Implicit Types (self : groups) (st : State) (p d : dict).

Lemma only_keys_empty (keys : list string) d :
  only_keys keys d → Forall (λ k, d !! k = None) keys → d = ∅.
Proof.
  intros Honly Hkeys. apply map_empty. intros k.
  destruct (decide (k ∈ keys)) as [Hin | Hout]; [| by apply Honly].
  by apply (proj1 (Forall_forall _ _) Hkeys).
Qed.

Lemma entry_falsy `{Truthy A, PyVal A} (x : option A) :
  truthy x = false → entry x = None.
Proof. unfold entry. by intros ->. Qed.

Lemma fields_entry_falsy (fields : option (list string)) :
  truthy fields = false → fields_entry fields = None.
Proof. unfold fields_entry. by intros ->. Qed.

(** [Groups.get].  The query is fixed by the four arguments alone: it
    holds no key other than [after], [max], [fields] and [keywords], and
    it is empty when all four are unset or false, so no default limit is
    added.  A client below version 2 is refused with nothing sent; any
    other client sends exactly [GET groups] with that query. *)
Theorem groups_get_query after limit fields keywords :
  ∃ p,
    only_keys ["after"; "max"; "fields"; "keywords"] p ∧
    (truthy after = false → truthy limit = false →
     truthy fields = false → truthy keywords = false → p = ∅) ∧
    ∀ self st,
      (api_version (Groups.swarm self) < 2 →
       fails_early compatibility_error
         (Groups.get self after limit fields keywords) st) ∧
      (2 ≤ api_version (Groups.swarm self) →
       sends_directly (Groups.swarm self)
         (mkRequest "GET" "groups" (Some p) None None)
         (Groups.get self after limit fields keywords) st).
Proof.
  destruct (groups_get_request (World:=World) (Response:=Response)
              (Failure:=Failure) after limit fields keywords)
    as (p & (Hafter & Hmax & Hfields & Hkeywords) & Honly & Hsends).
  exists p. split_and!; [done | |].
  - intros Ha Hl Hf Hk. apply (only_keys_empty _ _ Honly).
    rewrite (entry_falsy _ Ha) in Hafter. rewrite (entry_falsy _ Hl) in Hmax.
    rewrite (fields_entry_falsy _ Hf) in Hfields.
    rewrite (entry_falsy _ Hk) in Hkeywords.
    by repeat constructor.
  - intros self st. split; [| apply Hsends].
    intros Hlt. unfold Groups.get. by apply minimal_version_fails.
Qed.

(** [Groups.edit].  From version 2 on the call goes straight to the
    transport, without fetching the version metadata, as a form-encoded
    [PATCH] of [groups/{identifier}], never as JSON.  The payload is
    fixed by the arguments alone, holds none but the nine setting keys
    (never [Group], never a tuning field), and is empty when nothing is
    given: the method has no required-field check. *)
Theorem groups_edit_payload identifier users owners subgroups name description
    email_address notify_reviews notify_commits use_mailing_list :
  ∃ d,
    only_keys groups_edit_keys d ∧
    d !! "Group" = None ∧
    (truthy users = false → truthy owners = false →
     truthy subgroups = false → truthy name = false →
     truthy description = false → truthy email_address = false →
     truthy notify_reviews = false → truthy notify_commits = false →
     truthy use_mailing_list = false → d = ∅) ∧
    ∀ self st,
      2 ≤ api_version (Groups.swarm self) →
      sends_directly (Groups.swarm self)
        (mkRequest "PATCH" ("groups/" +:+ identifier) None (Some d) None)
        (Groups.edit self identifier users owners subgroups name description
           email_address notify_reviews notify_commits use_mailing_list) st.
Proof.
  destruct (groups_edit_request (World:=World) (Response:=Response)
              (Failure:=Failure) identifier users owners subgroups name
              description email_address notify_reviews notify_commits
              use_mailing_list) as (d & Hd & Honly & Hsends).
  exists d. split_and!; [done | | | done].
  - apply Honly. unfold groups_edit_keys. rewrite !not_elem_of_cons.
    split_and!; first [discriminate | apply not_elem_of_nil].
  - intros H1 H2 H3 H4 H5 H6 H7 H8 H9. apply (only_keys_empty _ _ Honly).
    unfold groups_settings in Hd.
    rewrite (entry_falsy _ H1), (entry_falsy _ H2), (entry_falsy _ H3),
      (entry_falsy _ H4), (entry_falsy _ H5), (entry_falsy _ H6),
      (entry_falsy _ H7), (entry_falsy _ H8), (entry_falsy _ H9) in Hd.
    destruct_and!. unfold groups_edit_keys. by repeat constructor.
Qed.


(** [Groups.get_info], [Groups.edit] and [Groups.delete] address the
    group by the path [groups/{identifier}], the identifier taken as it
    is, with the methods [GET], [PATCH] and [DELETE]; [Groups.delete]
    sends no dictionary at all.  Two deletions that reach the same path
    name the same group. *)
Theorem groups_identifier_paths :
  (∀ self identifier fields st req,
     sends_one (Groups.swarm self) req
       (Groups.get_info self identifier fields) st →
     method req = "GET" ∧ path req = "groups/" +:+ identifier) ∧
  (∀ self identifier users owners subgroups name description email_address
     notify_reviews notify_commits use_mailing_list st req,
     sends_one (Groups.swarm self) req
       (Groups.edit self identifier users owners subgroups name description
          email_address notify_reviews notify_commits use_mailing_list) st →
     method req = "PATCH" ∧ path req = "groups/" +:+ identifier) ∧
  (∀ self identifier st req,
     sends_one (Groups.swarm self) req (Groups.delete self identifier) st →
     req = mkRequest "DELETE" ("groups/" +:+ identifier) None None None) ∧
  (∀ self self' identifier identifier' st st' req req',
     sends_one (Groups.swarm self) req (Groups.delete self identifier) st →
     sends_one (Groups.swarm self') req'
       (Groups.delete self' identifier') st' →
     path req = path req' → identifier = identifier').
Proof.
  assert (∀ self identifier st req,
            sends_one (Groups.swarm self) req
              (Groups.delete self identifier) st →
            req = mkRequest "DELETE" ("groups/" +:+ identifier) None None None)
    as Hdelete.
  { intros self identifier st req Hreq.
    destruct (Z.lt_ge_cases (api_version (Groups.swarm self)) 2) as [Hlt | Hge].
    - exfalso. eapply sends_one_not_fails; [exact Hreq |].
      unfold Groups.delete. by apply minimal_version_fails.
    - symmetry. eapply sends_one_inj; [| exact Hreq].
      by apply groups_delete_sends. }
  split_and!; [| | done |].
  - intros self identifier fields st req Hreq.
    destruct (Z.lt_ge_cases (api_version (Groups.swarm self)) 2) as [Hlt | Hge].
    + exfalso. eapply sends_one_not_fails; [exact Hreq |].
      unfold Groups.get_info. by apply minimal_version_fails.
    + destruct (groups_get_info_sends self identifier fields st Hge)
        as (p & Hsends & _).
      by rewrite <- (sends_one_inj _ _ _ _ _ Hsends Hreq).
  - intros self identifier users owners subgroups name description
      email_address notify_reviews notify_commits use_mailing_list st req
      Hreq.
    destruct (Z.lt_ge_cases (api_version (Groups.swarm self)) 2) as [Hlt | Hge].
    + exfalso. eapply sends_one_not_fails; [exact Hreq |].
      unfold Groups.edit. by apply minimal_version_fails.
    + destruct (groups_edit_sends self identifier users owners subgroups name
                  description email_address notify_reviews notify_commits
                  use_mailing_list st Hge) as (d & Hsends & _).
      by rewrite <- (sends_one_inj _ _ _ _ _ Hsends Hreq).
  - intros self self' identifier identifier' st st' req req' Hreq Hreq' Hpath.
    rewrite (Hdelete _ _ _ _ Hreq), (Hdelete _ _ _ _ Hreq') in Hpath.
    simpl in Hpath. by apply (inj (String.app "groups/")) in Hpath.
Qed.
End GroupsExtras.

(** ** False values count as unset *)

Section FalsyUnset.
Context {World Response Failure : Type}.
Local Abbreviation State := (State World Response Failure).
Local Abbreviation M := (M World Response Failure).
Local Abbreviation groups := (@Groups.t World Response Failure).
Local Abbreviation reviews := (@Reviews.t World Response Failure).
Implicit Types (st : State) (p d : dict).

Lemma truthy_unset_if_falsy `{Truthy A} (x : option A) :
  truthy (unset_if_falsy x) = truthy x.
Proof. unfold unset_if_falsy. by destruct (truthy x) eqn:Hx. Qed.

Lemma store_if_unset `{Truthy A, PyVal A} (x : option A) (k : string) d :
  store_if (truthy (unset_if_falsy x)) k (py (unset_if_falsy x)) d =
  store_if (truthy x) k (py x) d.
Proof.
  rewrite truthy_unset_if_falsy. unfold unset_if_falsy.
  by destruct (truthy x).
Qed.

Lemma store_if_fields_unset (fields : option (list string)) (k : string) d :
  store_if (truthy (unset_if_falsy fields)) k
    (VStr (join_fields (unset_if_falsy fields))) d =
  store_if (truthy fields) k (VStr (join_fields fields)) d.
Proof.
  rewrite truthy_unset_if_falsy. unfold unset_if_falsy.
  by destruct (truthy fields).
Qed.

Lemma bind_ext {A B} (m : M A) (k k' : A → M B) st :
  (∀ a st', k a st' = k' a st') → (m ≫= k) st = (m ≫= k') st.
Proof.
  intros Hk. unfold mbind, M_bind. by destruct (m st) as [[a | e] st'].
Qed.

(** The Groups methods do not tell an optional argument that is false
    in Python's sense ([0], [False], the empty string, the empty list)
    from one that is left out: folding such values into [None] changes
    nothing of what a call does. *)
Theorem groups_falsy_is_unset :
  (∀ (self : groups) after limit fields keywords st,
     Groups.get self (unset_if_falsy after) (unset_if_falsy limit)
       (unset_if_falsy fields) (unset_if_falsy keywords) st =
     Groups.get self after limit fields keywords st) ∧
  (∀ (self : groups) identifier fields st,
     Groups.get_info self identifier (unset_if_falsy fields) st =
     Groups.get_info self identifier fields st) ∧
  (∀ (self : groups) identifier users owners subgroups name description
     email_address notify_reviews notify_commits use_mailing_list max_results
     max_scan_rows max_lock_time max_open_files max_memory timeout
     password_timeout st,
     Groups.create self identifier (unset_if_falsy users)
       (unset_if_falsy owners) (unset_if_falsy subgroups)
       (unset_if_falsy name) (unset_if_falsy description)
       (unset_if_falsy email_address) (unset_if_falsy notify_reviews)
       (unset_if_falsy notify_commits) (unset_if_falsy use_mailing_list)
       (unset_if_falsy max_results) (unset_if_falsy max_scan_rows)
       (unset_if_falsy max_lock_time) (unset_if_falsy max_open_files)
       (unset_if_falsy max_memory) (unset_if_falsy timeout)
       (unset_if_falsy password_timeout) st =
     Groups.create self identifier users owners subgroups name description
       email_address notify_reviews notify_commits use_mailing_list
       max_results max_scan_rows max_lock_time max_open_files max_memory
       timeout password_timeout st) ∧
  (∀ (self : groups) identifier users owners subgroups name description
     email_address notify_reviews notify_commits use_mailing_list st,
     Groups.edit self identifier (unset_if_falsy users)
       (unset_if_falsy owners) (unset_if_falsy subgroups)
       (unset_if_falsy name) (unset_if_falsy description)
       (unset_if_falsy email_address) (unset_if_falsy notify_reviews)
       (unset_if_falsy notify_commits) (unset_if_falsy use_mailing_list) st =
     Groups.edit self identifier users owners subgroups name description
       email_address notify_reviews notify_commits use_mailing_list st).
Proof.
  split_and!; intros.
  - unfold Groups.get.
    by rewrite !store_if_unset, store_if_fields_unset.
  - unfold Groups.get_info. by rewrite store_if_fields_unset.
  - unfold Groups.create.
    by rewrite !store_if_unset, !truthy_unset_if_falsy.
  - unfold Groups.edit. by rewrite !store_if_unset.
Qed.

(** The same for the Reviews methods, the three tri-state filters of
    [Reviews.get] apart: there [False] is sent and is not folded. *)
Theorem reviews_falsy_is_unset :
  (∀ (self : reviews) after limit fields authors changes has_reviewers ids
     keywords participants projects states passes_tests not_updated_since
     has_voted my_comments st,
     Reviews.get self (unset_if_falsy after) (unset_if_falsy limit)
       (unset_if_falsy fields) (unset_if_falsy authors)
       (unset_if_falsy changes) has_reviewers (unset_if_falsy ids)
       (unset_if_falsy keywords) (unset_if_falsy participants)
       (unset_if_falsy projects) (unset_if_falsy states) passes_tests
       (unset_if_falsy not_updated_since) (unset_if_falsy has_voted)
       my_comments st =
     Reviews.get self after limit fields authors changes has_reviewers ids
       keywords participants projects states passes_tests not_updated_since
       has_voted my_comments st) ∧
  (∀ (self : reviews) review_id fields st,
     Reviews.get_info self review_id (unset_if_falsy fields) st =
     Reviews.get_info self review_id fields st) ∧
  (∀ (self : reviews) review_id up_voters st,
     Reviews.get_transitions self review_id (unset_if_falsy up_voters) st =
     Reviews.get_transitions self review_id up_voters st) ∧
  (∀ (self : reviews) change description reviewers required_reviewers
     reviewer_groups st,
     Reviews.create self change (unset_if_falsy description)
       (unset_if_falsy reviewers) (unset_if_falsy required_reviewers)
       (unset_if_falsy reviewer_groups) st =
     Reviews.create self change description reviewers required_reviewers
       reviewer_groups st) ∧
  (∀ (self : reviews) review_id reopen st,
     Reviews.cleanup self review_id (unset_if_falsy reopen) st =
     Reviews.cleanup self review_id reopen st).
Proof.
  split_and!; intros.
  - unfold Reviews.get.
    rewrite !store_if_unset, store_if_fields_unset.
    rewrite (truthy_unset_if_falsy authors).
    assert (truthy authors = true → unset_if_falsy authors = authors)
      as Hauthors.
    { unfold unset_if_falsy. by intros ->. }
    destruct (truthy authors) eqn:Ha; rewrite ?Ha; [rewrite Hauthors by done |];
      (apply bind_ext; intros params st'; by rewrite !store_if_unset).
  - unfold Reviews.get_info. by rewrite store_if_fields_unset.
  - unfold Reviews.get_transitions. by rewrite store_if_unset.
  - unfold Reviews.create.
    rewrite !store_if_unset.
    rewrite (truthy_unset_if_falsy required_reviewers).
    assert (truthy required_reviewers = true →
            unset_if_falsy required_reviewers = required_reviewers) as Hreq.
    { unfold unset_if_falsy. by intros ->. }
    assert (truthy reviewer_groups = true →
            unset_if_falsy reviewer_groups = reviewer_groups) as Hgrp.
    { unfold unset_if_falsy. by intros ->. }
    destruct (truthy required_reviewers) eqn:Hr; rewrite ?Hr;
      [rewrite Hreq by done |];
      (apply bind_ext; intros data st';
       rewrite (truthy_unset_if_falsy reviewer_groups);
       destruct (truthy reviewer_groups) eqn:Hg; rewrite ?Hg;
       [rewrite Hgrp by done |]; done).
  - unfold Reviews.cleanup. by rewrite store_if_unset.
Qed.
End FalsyUnset.

(** ** When a call is accepted *)

Section Acceptance.
Context {World Response Failure : Type}.
Local Abbreviation Swarm := (Swarm World Response Failure).
Local Abbreviation State := (State World Response Failure).
Local Abbreviation M := (M World Response Failure).
Local Abbreviation groups := (@Groups.t World Response Failure).
Local Abbreviation reviews := (@Reviews.t World Response Failure).
Implicit Types (st : State) (p d : dict).

Lemma accepted_not_refused (swarm : Swarm) P (m : M Response) st :
  accepted swarm m st → ¬ fails_early P m st.
Proof. intros [req Hreq]. by eapply sends_one_not_fails. Qed.









Lemma reviews_get_transitions_accepted (self : reviews) review_id up_voters
    st :
  accepted (Reviews.swarm self)
    (Reviews.get_transitions self review_id up_voters) st
  ↔ 9 ≤ api_version (Reviews.swarm self).
Proof.
  split.
  - intros Hacc.
    destruct (Z.lt_ge_cases (api_version (Reviews.swarm self)) 9); [| done].
    exfalso. apply (accepted_not_refused _ (λ _, True) _ _ Hacc).
    eexists. split; [exact I | by apply reviews_get_transitions_fails].
  - intros Hge.
    destruct (reviews_get_transitions_sends self review_id up_voters st Hge)
      as (p & Hsends & _). by eexists.
Qed.

Lemma reviews_create_accepted (self : reviews) change description reviewers
    required_reviewers reviewer_groups st :
  accepted (Reviews.swarm self)
    (Reviews.create self change description reviewers required_reviewers
       reviewer_groups) st
  ↔ (truthy required_reviewers = false ∨
     api_version (Reviews.swarm self) ≠ 1) ∧
    (truthy reviewer_groups = false ∨ 7 ≤ api_version (Reviews.swarm self)).
Proof.
  split.
  - intros Hacc. split.
    + destruct (truthy required_reviewers) eqn:Hreq; [| by left].
      destruct (decide (api_version (Reviews.swarm self) = 1)); [| by right].
      exfalso. apply (accepted_not_refused _ (λ _, True) _ _ Hacc).
      eexists. split; [exact I | by apply reviews_create_fails_required].
    + destruct (truthy reviewer_groups) eqn:Hgrp; [| by left].
      destruct (Z.lt_ge_cases (api_version (Reviews.swarm self)) 7);
        [| by right].
      exfalso. eapply accepted_not_refused; [exact Hacc |].
      by apply reviews_create_fails_groups.
  - intros [Hreq Hgrp].
    destruct (reviews_create_sends self change description reviewers
                required_reviewers reviewer_groups st Hreq Hgrp)
      as (d & Hsends & _).
    by eexists.
Qed.


Lemma reviews_cleanup_accepted (self : reviews) review_id reopen st :
  accepted (Reviews.swarm self) (Reviews.cleanup self review_id reopen) st
  ↔ 6 ≤ api_version (Reviews.swarm self).
Proof.
  split.
  - intros Hacc.
    destruct (Z.lt_ge_cases (api_version (Reviews.swarm self)) 6); [| done].
    exfalso. apply (accepted_not_refused _ (λ _, True) _ _ Hacc).
    eexists. split; [exact I | by apply reviews_cleanup_fails].
  - intros Hge.
    destruct (reviews_cleanup_sends self review_id reopen st Hge)
      as (d & Hsends & _). by eexists.
Qed.


End Acceptance.

(** ** Further properties of the Reviews endpoints *)

Section ReviewsExtras.
Context {World Response Failure : Type}.
Local Abbreviation State := (State World Response Failure).
Local Abbreviation reviews := (@Reviews.t World Response Failure).
Implicit Types (self : reviews) (st : State) (p d : dict).

(** [Reviews.get].  The query is fixed by the arguments alone and holds
    no key outside the fifteen wire keys.  Nothing keeps [ids] and
    [limit] apart: given both, both are sent.  The only refusal is the
    one of a non-empty [authors] below version 2. *)
Theorem reviews_get_query after limit fields authors changes has_reviewers
    ids keywords participants projects states passes_tests not_updated_since
    has_voted my_comments :
  ∃ p,
    only_keys reviews_get_keys p ∧
    (truthy ids = true → truthy limit = true →
     p !! "ids" = Some (py ids) ∧ p !! "max" = Some (py limit)) ∧
    ∀ self st,
      truthy authors = false ∨ 2 ≤ api_version (Reviews.swarm self) →
      sends_directly (Reviews.swarm self)
        (mkRequest "GET" "reviews" (Some p) None None)
        (Reviews.get self after limit fields authors changes has_reviewers
           ids keywords participants projects states passes_tests
           not_updated_since has_voted my_comments) st.
Proof.
  destruct (reviews_get_request (World:=World) (Response:=Response)
              (Failure:=Failure) after limit fields authors changes
              has_reviewers ids keywords participants projects states
              passes_tests not_updated_since has_voted my_comments)
    as (p & Hp & Hsends).
  exists p.
  destruct Hp as (_ & Hmax & _ & _ & _ & _ & Hids & _ & _ & _ & _ & _ & _ & _
                  & _ & Honly).
  split_and!; [done | | done].
  intros Hi Hl. unfold entry in *. by rewrite Hi in Hids; rewrite Hl in Hmax.
Qed.

(** [Reviews.get_info] has no version guard: under every negotiated
    version, in every state, it goes straight to the transport with
    [GET reviews/{review_id}], the query holding the comma-joined
    [fields] when the list is non-empty and nothing otherwise. *)
Theorem reviews_get_info_any_version review_id fields :
  ∃ p,
    p !! "fields" =
      match fields with
      | None | Some [] => None
      | Some names => Some (VStr (join "," names))
      end ∧
    only_keys ["fields"] p ∧
    ∀ self st,
      sends_directly (Reviews.swarm self)
        (mkRequest "GET" ("reviews/" +:+ str_of_int review_id) (Some p)
           None None)
        (Reviews.get_info self review_id fields) st.
Proof.
  destruct (reviews_get_info_request (World:=World) (Response:=Response)
              (Failure:=Failure) review_id fields)
    as (p & Hfields & Honly & Hsends).
  exists p. split_and!; [| done..].
  rewrite Hfields. by destruct fields as [[|name names]|].
Qed.

(** [Reviews.archive].  Below version 6 the call is refused with
    nothing sent.  From version 6 on it posts to [reviews/archive] a
    payload with exactly the two keys [notUpdatedSince] and
    [description]: both arguments are required and are stored as they
    are, the empty string included. *)
Theorem reviews_archive_payload not_updated_since description :
  ∃ d,
    d !! "notUpdatedSince" = Some (VStr not_updated_since) ∧
    d !! "description" = Some (VStr description) ∧
    only_keys ["notUpdatedSince"; "description"] d ∧
    ∀ self st,
      (api_version (Reviews.swarm self) < 6 →
       Reviews.archive self not_updated_since description st =
       (Raise (SwarmCompatibleError "archive is supported with API v6+"),
        st)) ∧
      (6 ≤ api_version (Reviews.swarm self) →
       sends_directly (Reviews.swarm self)
         (mkRequest "POST" "reviews/archive" None (Some d) None)
         (Reviews.archive self not_updated_since description) st).
Proof.
  destruct (reviews_archive_request (World:=World) (Response:=Response)
              (Failure:=Failure) not_updated_since description)
    as (d & Hsince & Hdescription & Honly & Hsends).
  exists d. split_and!; [done.. |].
  intros self st. split; [apply reviews_archive_fails | apply Hsends].
Qed.

(** [Reviews.cleanup].  Below version 6 the call is refused with
    nothing sent.  From version 6 on it posts to
    [reviews/{review_id}/cleanup]; the payload holds [reopen] only for
    [reopen=True], and is empty for [False] as for [None]. *)
Theorem reviews_cleanup_payload review_id reopen :
  ∃ d,
    d = (if reopen is Some true then {[ "reopen" := VBool true ]} else ∅) ∧
    ∀ self st,
      (api_version (Reviews.swarm self) < 6 →
       Reviews.cleanup self review_id reopen st =
       (Raise (SwarmCompatibleError "cleanup is supported with API v6+"),
        st)) ∧
      (6 ≤ api_version (Reviews.swarm self) →
       sends_directly (Reviews.swarm self)
         (mkRequest "POST"
            ("reviews/" +:+ str_of_int review_id +:+ "/cleanup")
            None (Some d) None)
         (Reviews.cleanup self review_id reopen) st).
Proof.
  destruct (reviews_cleanup_request (World:=World) (Response:=Response)
              (Failure:=Failure) review_id reopen)
    as (d & Hreopen & Honly & Hsends).
  exists d. split.
  - apply map_eq. intros k. destruct (decide (k = "reopen")) as [-> | Hk].
    + rewrite Hreopen. by destruct reopen as [[|]|].
    + rewrite Honly by (rewrite not_elem_of_cons; split;
                        [done | apply not_elem_of_nil]).
      destruct reopen as [[|]|]; [by rewrite lookup_singleton_ne | done..].
  - intros self st. split; [apply reviews_cleanup_fails | apply Hsends].
Qed.

(** [Reviews.create], case by case.  A non-empty [required_reviewers]
    at negotiated version 1 is refused with the [required_reviewers]
    error, whatever [reviewer_groups] is: the first guard wins.  Past
    that guard, a non-empty [reviewer_groups] below version 7 is refused
    with the [reviewer_groups] error.  Every other call is sent; the
    first guard refuses version 1 only, so a client of version 0 gets
    [required_reviewers] through. *)
Theorem reviews_create_decisions self change description reviewers
    required_reviewers reviewer_groups st :
  let call :=
    Reviews.create self change description reviewers required_reviewers
      reviewer_groups in
  let version := api_version (Reviews.swarm self) in
  (truthy required_reviewers = true → version = 1 →
   call st =
   (Raise (SwarmCompatibleError
             "required_reviewers field is supported from API version > 1"),
    st)) ∧
  (truthy required_reviewers = false ∨ version ≠ 1 →
   truthy reviewer_groups = true → version < 7 →
   call st =
   (Raise (SwarmCompatibleError
             "reviewer_groups field is supported from API version > 6"),
    st)) ∧
  (truthy required_reviewers = false ∨ version ≠ 1 →
   truthy reviewer_groups = false ∨ 7 ≤ version →
   ∃ d,
     sends_directly (Reviews.swarm self)
       (mkRequest "POST" "reviews" None (Some d) None) call st ∧
     d !! "requiredReviewers" = entry required_reviewers ∧
     d !! "reviewerGroups" = entry reviewer_groups).
Proof.
  intros call version. split_and!.
  - apply reviews_create_fails_required.
  - intros Hreq Hgrp Hlt. apply Z.ltb_lt in Hlt.
    unfold call, Reviews.create, mbind, M_bind, mret, M_ret.
    fold version. rewrite Hgrp, Hlt.
    destruct Hreq as [-> | Hne]; [done |].
    apply Z.eqb_neq in Hne. rewrite Hne.
    by destruct (truthy required_reviewers).
  - intros Hreq Hgrp.
    destruct (reviews_create_request (World:=World) (Response:=Response)
                (Failure:=Failure) change description reviewers
                required_reviewers reviewer_groups)
      as (d & (_ & _ & _ & Hrequired & Hgroups) & _ & Hsends).
    exists d. split_and!; [by apply Hsends | done..].
Qed.

(** The payload of [Reviews.create] is fixed by the arguments alone: it
    holds [change], always, and no key outside the five the method
    writes; every client that accepts the call posts exactly this
    payload to [reviews], form-encoded. *)
Theorem reviews_create_payload change description reviewers
    required_reviewers reviewer_groups :
  ∃ d,
    d !! "change" = Some (VInt change) ∧
    only_keys reviews_create_keys d ∧
    ∀ self st,
      accepted (Reviews.swarm self)
        (Reviews.create self change description reviewers required_reviewers
           reviewer_groups) st →
      sends_directly (Reviews.swarm self)
        (mkRequest "POST" "reviews" None (Some d) None)
        (Reviews.create self change description reviewers required_reviewers
           reviewer_groups) st.
Proof.
  destruct (reviews_create_request (World:=World) (Response:=Response)
              (Failure:=Failure) change description reviewers
              required_reviewers reviewer_groups)
    as (d & (Hchange & _) & Honly & Hsends).
  exists d. split_and!; [done.. |].
  intros self st Hacc. apply reviews_create_accepted in Hacc as [Hreq Hgrp].
  by apply Hsends.
Qed.
End ReviewsExtras.

(** ** The requests themselves *)

Section Shapes.
Context {World Response Failure : Type}.
Local Abbreviation Swarm := (Swarm World Response Failure).
Local Abbreviation State := (State World Response Failure).
Local Abbreviation M := (M World Response Failure).
Local Abbreviation groups := (@Groups.t World Response Failure).
Local Abbreviation reviews := (@Reviews.t World Response Failure).
Implicit Types (st : State) (p d : dict).

Lemma sent_directly_is (swarm : Swarm) req req' (m : M Response) st :
  sends_directly swarm req m st → sends_one swarm req' m st → req' = req.
Proof.
  intros Hdirect Hreq. symmetry.
  eapply sends_one_inj; [by apply sends_directly_one | done].
Qed.




(** Decimal rendering of integers. *)
Lemma to_int_proper (n : Z) :
  Z.to_int n ≠ Decimal.Pos Decimal.Nil ∧
  Z.to_int n ≠ Decimal.Neg Decimal.Nil.
Proof.
  destruct n as [|q|q]; simpl; split; try discriminate;
    intros [= Hnil]; by apply DecimalPos.Unsigned.to_uint_nonnil in Hnil.
Qed.

Lemma int_of_str_of_int (n : Z) :
  NilZero.int_of_string (str_of_int n) = Some (Z.to_int n).
Proof. destruct (to_int_proper n). by apply NilZero.isi. Qed.

Lemma str_of_int_inj (n n' : Z) : str_of_int n = str_of_int n' → n = n'.
Proof.
  intros Heq. apply (f_equal NilZero.int_of_string) in Heq.
  rewrite !int_of_str_of_int in Heq. injection Heq as Heq.
  by apply DecimalZ.to_int_inj.
Qed.

Lemma list_ascii_of_append (s t : string) :
  Strings.String.list_ascii_of_string (s +:+ t) =
  Strings.String.list_ascii_of_string s ++
  Strings.String.list_ascii_of_string t.
Proof.
  induction s as [|a s IH]; [done |].
  change (String a s +:+ t) with (String a (s +:+ t)). simpl. by rewrite IH.
Qed.

Lemma append_inv_tail (s s' t : string) : s +:+ t = s' +:+ t → s = s'.
Proof.
  intros Heq. apply (f_equal Strings.String.list_ascii_of_string) in Heq.
  rewrite !list_ascii_of_append in Heq. apply app_inv_tail in Heq.
  apply (f_equal Strings.String.string_of_list_ascii) in Heq.
  by rewrite !Strings.String.string_of_list_ascii_of_string in Heq.
Qed.

(** The path of a review names the review: two calls of
    [Reviews.get_info], of [Reviews.get_transitions] or of
    [Reviews.cleanup] that go to the same path are about the same review
    id, and no review's own path is the path [reviews/archive] of
    [Reviews.archive]. *)
Theorem review_paths_distinct :
  (∀ (self self' : reviews) review_id review_id' fields fields' st st'
     req req',
     sends_one (Reviews.swarm self) req
       (Reviews.get_info self review_id fields) st →
     sends_one (Reviews.swarm self') req'
       (Reviews.get_info self' review_id' fields') st' →
     path req = path req' → review_id = review_id') ∧
  (∀ (self self' : reviews) review_id review_id' up_voters up_voters' st st'
     req req',
     sends_one (Reviews.swarm self) req
       (Reviews.get_transitions self review_id up_voters) st →
     sends_one (Reviews.swarm self') req'
       (Reviews.get_transitions self' review_id' up_voters') st' →
     path req = path req' → review_id = review_id') ∧
  (∀ (self self' : reviews) review_id review_id' reopen reopen' st st'
     req req',
     sends_one (Reviews.swarm self) req
       (Reviews.cleanup self review_id reopen) st →
     sends_one (Reviews.swarm self') req'
       (Reviews.cleanup self' review_id' reopen') st' →
     path req = path req' → review_id = review_id') ∧
  (∀ (self : reviews) review_id fields st req,
     sends_one (Reviews.swarm self) req
       (Reviews.get_info self review_id fields) st →
     path req ≠ "reviews/archive").
Proof.
  assert (∀ (self : reviews) review_id fields st req,
            sends_one (Reviews.swarm self) req
              (Reviews.get_info self review_id fields) st →
            path req = "reviews/" +:+ str_of_int review_id) as Hinfo.
  { intros self review_id fields st req Hreq.
    destruct (reviews_get_info_request (World:=World) (Response:=Response)
                (Failure:=Failure) review_id fields)
      as (p & _ & _ & Hsends).
    by rewrite (sent_directly_is _ _ _ _ _ (Hsends self st) Hreq). }
  split_and!.
  - intros until req'. intros Hreq Hreq' Hpath.
    rewrite (Hinfo _ _ _ _ _ Hreq), (Hinfo _ _ _ _ _ Hreq') in Hpath.
    apply (inj (String.app "reviews/")) in Hpath. by apply str_of_int_inj.
  - intros until req'. intros Hreq Hreq' Hpath.
    assert (accepted _ _ st) as Hacc by (by exists req).
    assert (accepted _ _ st') as Hacc' by (by exists req').
    apply reviews_get_transitions_accepted in Hacc, Hacc'.
    destruct (reviews_get_transitions_request (World:=World)
                (Response:=Response) (Failure:=Failure) review_id up_voters)
      as (p & _ & _ & Hsends).
    destruct (reviews_get_transitions_request (World:=World)
                (Response:=Response) (Failure:=Failure) review_id' up_voters')
      as (p' & _ & _ & Hsends').
    rewrite (sent_directly_is _ _ _ _ _ (Hsends self st Hacc) Hreq) in Hpath.
    rewrite (sent_directly_is _ _ _ _ _ (Hsends' self' st' Hacc') Hreq')
      in Hpath.
    simpl in Hpath. apply (inj (String.app "reviews/")) in Hpath.
    apply append_inv_tail in Hpath. by apply str_of_int_inj.
  - intros until req'. intros Hreq Hreq' Hpath.
    assert (accepted _ _ st) as Hacc by (by exists req).
    assert (accepted _ _ st') as Hacc' by (by exists req').
    apply reviews_cleanup_accepted in Hacc, Hacc'.
    destruct (reviews_cleanup_request (World:=World) (Response:=Response)
                (Failure:=Failure) review_id reopen)
      as (d & _ & _ & Hsends).
    destruct (reviews_cleanup_request (World:=World) (Response:=Response)
                (Failure:=Failure) review_id' reopen')
      as (d' & _ & _ & Hsends').
    rewrite (sent_directly_is _ _ _ _ _ (Hsends self st Hacc) Hreq) in Hpath.
    rewrite (sent_directly_is _ _ _ _ _ (Hsends' self' st' Hacc') Hreq')
      in Hpath.
    simpl in Hpath. apply (inj (String.app "reviews/")) in Hpath.
    apply append_inv_tail in Hpath. by apply str_of_int_inj.
  - intros self review_id fields st req Hreq Hpath.
    rewrite (Hinfo _ _ _ _ _ Hreq) in Hpath.
    apply (inj (String.app "reviews/") _ "archive") in Hpath.
    apply (f_equal NilZero.int_of_string) in Hpath.
    rewrite int_of_str_of_int in Hpath. discriminate.
Qed.
End Shapes.

(** ** The further properties at work on the mock client *)



Section GroupsInfo.
Context {World Response Failure : Type}.
Local Abbreviation State := (State World Response Failure).
Local Abbreviation groups := (@Groups.t World Response Failure).
Implicit Types (self : groups) (st : State) (p d : dict).

(** [Groups.get_info].  A client below version 2 is refused with
    nothing sent; any other client goes straight to the transport with
    [GET groups/{identifier}].  The query is fixed by [fields] alone: it
    holds the comma-joined list under [fields] when the list is
    non-empty, and nothing at all otherwise. *)
Theorem groups_get_info_query identifier fields :
  ∃ p,
    p !! "fields" =
      match fields with
      | None | Some [] => None
      | Some names => Some (VStr (join "," names))
      end ∧
    only_keys ["fields"] p ∧
    ∀ self st,
      (api_version (Groups.swarm self) < 2 →
       fails_early compatibility_error
         (Groups.get_info self identifier fields) st) ∧
      (2 ≤ api_version (Groups.swarm self) →
       sends_directly (Groups.swarm self)
         (mkRequest "GET" ("groups/" +:+ identifier) (Some p) None None)
         (Groups.get_info self identifier fields) st).
Proof.
  destruct (groups_get_info_request (World:=World) (Response:=Response)
              (Failure:=Failure) identifier fields)
    as (p & Hfields & Honly & Hsends).
  exists p. split_and!; [| done |].
  - rewrite Hfields. by destruct fields as [[|name names]|].
  - intros self st. split; [| apply Hsends].
    intros Hlt. unfold Groups.get_info. by apply minimal_version_fails.
Qed.
End GroupsInfo.
